(** * TravelGenie: form controller, autocomplete matcher, guide orchestration
    and result view, embedded from the TypeScript sources.

  - [JsString]   : the [String.prototype] members the components call.
  - [TravelForm] : [components/TravelForm.tsx] (directory, handlers).
  - [Js]         : run-time values as [JSON.parse] produces them.
  - [Gemini]     : [services/geminiService.ts].
  - [App]        : [App.tsx] ([handleFormSubmit], [handleReset]).
  - [ResultView] : [components/ResultView.tsx] (tabs, map jump).  *)

From Stdlib Require Import Bool List String Ascii NArith ZArith Lia Floats.
From Stdlib Require Decimal DecimalString DecimalPos DecimalN.
From Stdlib Require QArith.
Import ListNotations.
Open Scope string_scope.
Open Scope list_scope.

(** ** Strings

  A JavaScript string is a sequence of UTF-16 code units.  The embedding
  keeps the code units below U+0100, one [ascii] each (the directory and
  every string the handlers compare with are in that range).  On that range
  [toLowerCase] maps one code unit to one code unit, so the definitions
  below are the ECMAScript ones and not an approximation. *)
Module JsString.

(** WhiteSpace and LineTerminator code units (TAB, LF, VT, FF, CR, SP,
    NBSP): what [trim] strips and what [parseInt] skips. *)
Definition isWhiteSpace (c : ascii) : bool :=
  let n := N_of_ascii c in
  ((9 <=? n) && (n <=? 13) || (n =? 32) || (n =? 160))%N.

(** A-Z, and the Latin-1 capitals U+00C0..U+00DE without the
    multiplication sign U+00D7, are 32 below their lower-case form. *)
Definition lowerChar (c : ascii) : ascii :=
  let n := N_of_ascii c in
  if ((65 <=? n) && (n <=? 90)
      || (192 <=? n) && (n <=? 222) && negb (n =? 215))%N
  then ascii_of_N (n + 32) else c.

Fixpoint toLowerCase (s : string) : string :=
  match s with
  | EmptyString => EmptyString
  | String c s' => String (lowerChar c) (toLowerCase s')
  end.

Fixpoint trimStart (s : string) : string :=
  match s with
  | EmptyString => EmptyString
  | String c s' => if isWhiteSpace c then trimStart s' else s
  end.

Fixpoint trimEnd (s : string) : string :=
  match s with
  | EmptyString => EmptyString
  | String c s' =>
      match trimEnd s' with
      | EmptyString => if isWhiteSpace c then EmptyString
                       else String c EmptyString
      | r => String c r
      end
  end.

Definition trim (s : string) : string := trimEnd (trimStart s).

(** [s.startsWith(p)] *)
Fixpoint startsWith (s p : string) {struct p} : bool :=
  match p, s with
  | EmptyString, _ => true
  | String _ _, EmptyString => false
  | String a p', String b s' => Ascii.eqb a b && startsWith s' p'
  end.

(** [s.includes(p)] *)
Fixpoint includes (s p : string) : bool :=
  startsWith s p ||
  match s with
  | EmptyString => false
  | String _ s' => includes s' p
  end.

(** ToBoolean on a string: the empty string is the only falsy one. *)
Definition truthy (s : string) : bool :=
  match s with EmptyString => false | String _ _ => true end.

End JsString.

(** ** components/TravelForm.tsx *)
Module TravelForm.
Import JsString.

Record Location := mkLocation { city : string; country : string }.

Definition POPULAR_LOCATIONS : list Location :=
  [ mkLocation "Paris" "France"; mkLocation "Nice" "France";
    mkLocation "Lyon" "France"; mkLocation "Marseille" "France";
    mkLocation "London" "United Kingdom";
    mkLocation "Edinburgh" "United Kingdom";
    mkLocation "Manchester" "United Kingdom";
    mkLocation "New York" "USA"; mkLocation "Los Angeles" "USA";
    mkLocation "San Francisco" "USA"; mkLocation "Chicago" "USA";
    mkLocation "Miami" "USA"; mkLocation "Las Vegas" "USA";
    mkLocation "Tokyo" "Japan"; mkLocation "Kyoto" "Japan";
    mkLocation "Osaka" "Japan";
    mkLocation "Rome" "Italy"; mkLocation "Florence" "Italy";
    mkLocation "Venice" "Italy"; mkLocation "Milan" "Italy";
    mkLocation "Barcelona" "Spain"; mkLocation "Madrid" "Spain";
    mkLocation "Seville" "Spain";
    mkLocation "Dubai" "UAE"; mkLocation "Abu Dhabi" "UAE";
    mkLocation "Singapore" "Singapore";
    mkLocation "Amsterdam" "Netherlands";
    mkLocation "Rotterdam" "Netherlands";
    mkLocation "Bangkok" "Thailand"; mkLocation "Phuket" "Thailand";
    mkLocation "Chiang Mai" "Thailand";
    mkLocation "Sydney" "Australia"; mkLocation "Melbourne" "Australia";
    mkLocation "Istanbul" "Turkey"; mkLocation "Antalya" "Turkey";
    mkLocation "Prague" "Czech Republic";
    mkLocation "Vienna" "Austria";
    mkLocation "Lisbon" "Portugal"; mkLocation "Porto" "Portugal";
    mkLocation "Berlin" "Germany"; mkLocation "Munich" "Germany";
    mkLocation "Hamburg" "Germany";
    mkLocation "Santorini" "Greece"; mkLocation "Athens" "Greece";
    mkLocation "Mykonos" "Greece";
    mkLocation "Bali" "Indonesia"; mkLocation "Jakarta" "Indonesia";
    mkLocation "Hong Kong" "China";
    mkLocation "Seoul" "South Korea"; mkLocation "Busan" "South Korea";
    mkLocation "Rio de Janeiro" "Brazil"; mkLocation "Sao Paulo" "Brazil";
    mkLocation "Cape Town" "South Africa";
    mkLocation "Johannesburg" "South Africa";
    mkLocation "Cairo" "Egypt";
    mkLocation "Marrakech" "Morocco";
    mkLocation "Toronto" "Canada"; mkLocation "Vancouver" "Canada";
    mkLocation "Montreal" "Canada";
    mkLocation "Mumbai" "India"; mkLocation "Delhi" "India";
    mkLocation "Jaipur" "India";
    mkLocation "Cancun" "Mexico"; mkLocation "Mexico City" "Mexico" ].

(** [FormState] of types.ts; its fields carry the [fd_] prefix because
    [city] and [country] already name the projections of [Location]. *)
Record FormState := mkFormState {
  fd_city : string;
  fd_country : string;
  fd_duration : string
}.

(** The [useState] cells of the component. *)
Record State := mkState {
  formData : FormState;
  activeField : option string;
  citySuggestions : list Location;
  countrySuggestions : list string;
  showCityDropdown : bool;
  showCountryDropdown : bool
}.

(** [useState] initial values. *)
Definition initial : State :=
  mkState (mkFormState "" "" "") None [] [] false false.

(** What a handler does, in program order: the state setters it calls
    and the two calls that leave the component. *)
Inductive Action :=
| preventDefault
| setFormData (upd : FormState -> FormState)
| setActiveField (f : option string)
| setCitySuggestions (l : list Location)
| setCountrySuggestions (l : list string)
| setShowCityDropdown (b : bool)
| setShowCountryDropdown (b : bool)
| onSubmit (data : FormState).

(** A handler sees the state of the render it was created in. *)
Definition Handler := State -> list Action.

Definition reduce (st : State) (a : Action) : State :=
  match a with
  | preventDefault => st
  | setFormData upd =>
      mkState (upd (formData st)) (activeField st) (citySuggestions st)
              (countrySuggestions st) (showCityDropdown st)
              (showCountryDropdown st)
  | setActiveField f =>
      mkState (formData st) f (citySuggestions st)
              (countrySuggestions st) (showCityDropdown st)
              (showCountryDropdown st)
  | setCitySuggestions l =>
      mkState (formData st) (activeField st) l
              (countrySuggestions st) (showCityDropdown st)
              (showCountryDropdown st)
  | setCountrySuggestions l =>
      mkState (formData st) (activeField st) (citySuggestions st)
              l (showCityDropdown st) (showCountryDropdown st)
  | setShowCityDropdown b =>
      mkState (formData st) (activeField st) (citySuggestions st)
              (countrySuggestions st) b (showCountryDropdown st)
  | setShowCountryDropdown b =>
      mkState (formData st) (activeField st) (citySuggestions st)
              (countrySuggestions st) (showCityDropdown st) b
  | onSubmit _ => st
  end.

(** The state of the next render. *)
Definition run (h : Handler) (st : State) : State :=
  fold_left reduce (h st) st.

(** The arguments of the [onSubmit] calls a handler made. *)
Fixpoint submitted (acts : list Action) : list FormState :=
  match acts with
  | [] => []
  | onSubmit d :: rest => d :: submitted rest
  | _ :: rest => submitted rest
  end.

(** [new Set(xs)] followed by [Array.from]: a [Set] keeps the order of
    insertion and ignores a value it already holds. *)
Definition setAdd (acc : list string) (x : string) : list string :=
  if existsb (String.eqb x) acc then acc else acc ++ [x].

Definition arrayFromSet (xs : list string) : list string :=
  fold_left setAdd xs [].

Definition handleCityChange (value : string) : Handler := fun st =>
  setFormData (fun prev => mkFormState value (fd_country prev) (fd_duration prev))
  :: if (0 <? String.length (trim value))%nat then
       let filtered :=
         filter (fun loc =>
           let matchCity :=
             startsWith (toLowerCase (city loc)) (toLowerCase value) in
           let matchCountry :=
             if truthy (fd_country (formData st))
             then String.eqb (toLowerCase (country loc))
                             (toLowerCase (fd_country (formData st)))
                  || includes (toLowerCase (country loc))
                              (toLowerCase (fd_country (formData st)))
             else true in
           matchCity && matchCountry) POPULAR_LOCATIONS in
       [ setCitySuggestions filtered; setShowCityDropdown true ]
     else
       [ setCitySuggestions []; setShowCityDropdown false ].

Definition handleCountryChange (value : string) : Handler := fun st =>
  setFormData (fun prev => mkFormState (fd_city prev) value (fd_duration prev))
  :: if (0 <? String.length (trim value))%nat then
       let uniqueCountries :=
         arrayFromSet
           (filter (fun c => startsWith (toLowerCase c) (toLowerCase value))
                   (map country POPULAR_LOCATIONS)) in
       [ setCountrySuggestions uniqueCountries; setShowCountryDropdown true ]
     else
       [ setCountrySuggestions []; setShowCountryDropdown false ].

Definition selectCity (c k : string) : Handler := fun _ =>
  [ setFormData (fun prev => mkFormState c k (fd_duration prev));
    setShowCityDropdown false;
    setShowCountryDropdown false ].

Definition selectCountry (k : string) : Handler := fun _ =>
  [ setFormData (fun prev => mkFormState (fd_city prev) k (fd_duration prev));
    setShowCountryDropdown false ].

Definition handleCityFocus : Handler := fun st =>
  setActiveField (Some "city")
  :: if truthy (fd_country (formData st)) && negb (truthy (fd_city (formData st)))
     then
       let filtered :=
         filter (fun loc =>
           String.eqb (toLowerCase (country loc))
                      (toLowerCase (fd_country (formData st))))
           POPULAR_LOCATIONS in
       [ setCitySuggestions filtered; setShowCityDropdown true ]
     else if truthy (fd_city (formData st))
     then [ setShowCityDropdown true ]
     else [].

Definition handleDurationChange (value : string) : Handler := fun st =>
  [ setFormData (fun _ =>
      mkFormState (fd_city (formData st)) (fd_country (formData st)) value) ].

Definition handleSubmit : Handler := fun st =>
  [ preventDefault;
    setShowCityDropdown false;
    setShowCountryDropdown false;
    setActiveField None ]
  ++ (if truthy (trim (fd_city (formData st)))
         && truthy (trim (fd_country (formData st)))
      then [ onSubmit (formData st) ]
      else []).

(** The suggestion lists of section 4.2, read off the handlers. *)
Definition matchCities (partialCity currentCountry : string) : list Location :=
  citySuggestions
    (run (handleCityChange partialCity)
         (mkState (mkFormState "" currentCountry "") None [] [] false false)).

Definition matchCountries (partialCountry : string) : list string :=
  countrySuggestions (run (handleCountryChange partialCountry) initial).

End TravelForm.


(** ** Run-time values

  The service treats the parsed reply as an untyped object, so the
  embedding keeps JavaScript's dynamic values: a number is a binary64
  float, an object is its list of own properties in insertion order. *)
Module Js.
Import JsString.

#[warnings="-register-all"] Inductive Value :=
| undefined
| null
| JBool (b : bool)
| JNum (x : float)
| JStr (s : string)
| JArr (items : list Value)
| JObj (props : list (string * Value)).

Definition Object := list (string * Value).

(** What a [throw] carries. *)
Inductive Exn :=
| Error (message : string)
| TypeError
| SyntaxError
| ApiError (status : nat).

(** Completion of a call, or settlement of the promise it returns. *)
Inductive Outcome (A : Type) :=
| Returned (a : A)
| Thrown (e : Exn).
Arguments Returned {A} a.
Arguments Thrown {A} e.

Definition bind {A B} (m : Outcome A) (k : A -> Outcome B) : Outcome B :=
  match m with
  | Returned a => k a
  | Thrown e => Thrown e
  end.

(** [try { body } catch (e) { handler(e) }] *)
Definition tryCatch {A} (body : Outcome A) (handler : Exn -> Outcome A)
  : Outcome A :=
  match body with
  | Returned a => Returned a
  | Thrown e => handler e
  end.

Definition ToBoolean (v : Value) : bool :=
  match v with
  | undefined | null => false
  | JBool b => b
  | JNum x => negb (PrimFloat.eqb x 0%float || PrimFloat.is_nan x)
  | JStr s => truthy s
  | JArr _ | JObj _ => true
  end.

(** [a || b] *)
Definition or (a b : Value) : Value := if ToBoolean a then a else b.

Definition isArray (v : Value) : bool :=
  match v with JArr _ => true | _ => false end.

Fixpoint lookup (k : string) (props : Object) : Value :=
  match props with
  | [] => undefined
  | (k', v) :: rest => if String.eqb k k' then v else lookup k rest
  end.

(** [v.k] for the property names the application reads ([city], ...,
    [localTips], [imageUrl], [gallery]): none of them is a member of a
    primitive's wrapper or of [Array.prototype], so only objects answer
    with something else than [undefined]; reading a property of
    [undefined] or [null] throws. *)
Definition get (v : Value) (k : string) : Outcome Value :=
  match v with
  | undefined | null => Thrown TypeError
  | JObj props => Returned (lookup k props)
  | JBool _ | JNum _ | JStr _ | JArr _ => Returned undefined
  end.

(** Assignment of one property: an existing key keeps its place, a new
    key goes last. *)
Fixpoint setProp (props : Object) (k : string) (v : Value) : Object :=
  match props with
  | [] => [(k, v)]
  | (k', v') :: rest =>
      if String.eqb k k' then (k, v) :: rest
      else (k', v') :: setProp rest k v
  end.

(** A [string | undefined] as a value. *)
Definition ofOptString (o : option string) : Value :=
  match o with Some s => JStr s | None => undefined end.

(** Interpolation of a [string | undefined] in a template literal. *)
Definition interpolate (o : option string) : string :=
  match o with Some s => s | None => "undefined" end.

End Js.

Module Notations.
Notation "x <- m ;; k" := (Js.bind m (fun x => k))
  (at level 61, m at next level, right associativity).
End Notations.

(** ** services/geminiService.ts *)
Module Gemini.
Import JsString Js Notations.

(** *** [parseInt(string)] with no radix argument.

    [parseInt] returns a Number, a binary64 value.  What it can return is
    [NaN], an integer with its sign ([-0] is [Int true 0]) or an infinity:
    [Int s m] is the Number of value [m], so [m] is always an integer
    that binary64 represents. *)
Inductive IntNumber :=
| NaN
| Int (negative : bool) (magnitude : N)
| Infinity (negative : bool).

(** The binary64 value of a mathematical integer: itself when it has at
    most 53 significant bits, otherwise rounded to 53 significant bits,
    to nearest and on a tie to the even significand; nothing finite from
    2^1024 on.  (Step 10 of the ECMAScript algorithm allows an
    approximation beyond 20 significant digits; the rounding modelled is
    the exact one.) *)
Definition roundToDouble (m : N) : option N :=
  let bits := N.size m in
  if (bits <=? 53)%N then Some m
  else
    let shift := (bits - 53)%N in
    let q := N.shiftr m shift in
    let r := N.land m (N.ones shift) in
    let half := N.shiftl 1 (shift - 1) in
    let q' := if (half <? r)%N || ((r =? half)%N && N.odd q)
              then (q + 1)%N else q in
    let v := N.shiftl q' shift in
    if (v <? 2 ^ 1024)%N then Some v else None.

(** The Number for [sign * mathInt]. *)
Definition toNumber (negative : bool) (mathInt : N) : IntNumber :=
  match roundToDouble mathInt with
  | Some m => Int negative m
  | None => Infinity negative
  end.

Definition digitValue (c : ascii) : option N :=
  let n := N_of_ascii c in
  if ((48 <=? n) && (n <=? 57))%N then Some (n - 48)%N
  else if ((97 <=? n) && (n <=? 122))%N then Some (n - 87)%N
  else if ((65 <=? n) && (n <=? 90))%N then Some (n - 55)%N
  else None.

(** The longest prefix of radix-[R] digits, as a number; [acc] is the
    value of the digits read so far, [None] when there is none yet. *)
Fixpoint digits (R : N) (s : string) (acc : option N) : option N :=
  match s with
  | EmptyString => acc
  | String c s' =>
      match digitValue c with
      | Some d =>
          if (d <? R)%N
          then digits R s' (Some (match acc with
                                  | Some a => a * R + d
                                  | None => d
                                  end)%N)
          else acc
      | None => acc
      end
  end.

Definition parseInt (input : string) : IntNumber :=
  let str := trimStart input in
  let '(negative, str) :=
    match str with
    | String "-" rest => (true, rest)
    | String "+" rest => (false, rest)
    | _ => (false, str)
    end in
  let '(R, str) :=
    match str with
    | String "0" (String "x" rest) => (16%N, rest)
    | String "0" (String "X" rest) => (16%N, rest)
    | _ => (10%N, str)
    end in
  match digits R str None with
  | None => NaN
  | Some mathInt => toNumber negative mathInt
  end.

Definition ToBooleanInt (n : IntNumber) : bool :=
  match n with
  | NaN => false
  | Int _ m => negb (m =? 0)%N
  | Infinity _ => true
  end.

(** [const numDays = parseInt(duration) || 1;] *)
Definition numDays (duration : string) : IntNumber :=
  let n := parseInt duration in
  if ToBooleanInt n then n else Int false 1.

(** *** The generative service *)

(** [contents]: the guide prompt is kept as the values interpolated in
    its template, the image prompts are the strings themselves. *)
Inductive Prompt :=
| GuidePrompt (currentDate city country : string) (numDays : IntNumber)
| Text (s : string).

Inductive Config :=
| JsonSchemaConfig
| ImageConfig (aspectRatio : string).

Record Request := mkRequest {
  model : string;
  contents : Prompt;
  config : Config
}.

Record Blob := mkBlob { mimeType : option string; data : option string }.
Record Part := mkPart { inlineData : option Blob }.
Record Content := mkContent { parts : option (list Part) }.
Record Candidate := mkCandidate { content : option Content }.
Record Response := mkResponse {
  text : option string;
  candidates : option (list Candidate)
}.

(** What the module takes from outside: the client [ai.models], the
    built-in [JSON.parse], and the month and year [new Date()] prints. *)
Record Host := mkHost {
  generateContent : Request -> Outcome Response;
  JSON_parse : string -> Outcome Value;
  currentDate : string
}.

Definition defaultCoordinates : Value :=
  JObj [("lat", JNum 0%float); ("lng", JNum 0%float)].

Definition defaultWeather : Value :=
  JObj [("temperature", JStr "N/A");
        ("condition", JStr "Unknown");
        ("packingSuggestion", JStr "Please check local forecast.")].

Definition arrayOrEmpty (v : Value) : Value :=
  if isArray v then v else JArr [].

(** The object literal bound to [safeData], with the property reads of
    [parsedData] it makes, in order. *)
Definition safeData (parsedData : Value) (city country : string)
  : Outcome Object :=
  p_city <- get parsedData "city" ;;
  p_country <- get parsedData "country" ;;
  p_coordinates <- get parsedData "coordinates" ;;
  p_introduction <- get parsedData "introduction" ;;
  p_weather <- get parsedData "weather" ;;
  p_attractions <- get parsedData "attractions" ;;
  p_mapContext <- get parsedData "mapContext" ;;
  p_itinerary <- get parsedData "itinerary" ;;
  p_localTips <- get parsedData "localTips" ;;
  Returned
    [ ("city", or p_city (JStr city));
      ("country", or p_country (JStr country));
      ("coordinates", or p_coordinates defaultCoordinates);
      ("introduction",
        or p_introduction (JStr "Information currently unavailable."));
      ("weather", or p_weather defaultWeather);
      ("attractions", arrayOrEmpty p_attractions);
      ("mapContext", or p_mapContext (JStr "Map details unavailable."));
      ("itinerary", arrayOrEmpty p_itinerary);
      ("localTips", arrayOrEmpty p_localTips) ].

Definition guideRequest (h : Host) (city country duration : string)
  : Request :=
  let model := "gemini-2.5-flash" in
  let numDays := numDays duration in
  let prompt := GuidePrompt (currentDate h) city country numDays in
  mkRequest model prompt JsonSchemaConfig.

Definition generateCityGuide (h : Host) (city country duration : string)
  : Outcome Object :=
  tryCatch
    (response <- generateContent h (guideRequest h city country duration) ;;
     match text response with
     | None | Some EmptyString =>
         Thrown (Error "No text returned from Gemini")
     | Some jsonText =>
         parsedData <- JSON_parse h jsonText ;;
         safeData parsedData city country
     end)
    (fun error => Thrown error).

(** [response.candidates?.[0]?.content?.parts] *)
Definition firstParts (response : Response) : option (list Part) :=
  match candidates response with
  | Some (c :: _) =>
      match content c with
      | Some ct => parts ct
      | None => None
      end
  | _ => None
  end.

(** The [for (const part of parts)] loop with its early [return]. *)
Fixpoint firstInlineImage (ps : list Part) : option string :=
  match ps with
  | [] => None
  | part :: rest =>
      match inlineData part with
      | Some blob =>
          match data blob with
          | Some (String _ _ as d) =>
              Some ("data:" ++ interpolate (mimeType blob)
                    ++ ";base64," ++ d)%string
          | _ => firstInlineImage rest
          end
      | None => firstInlineImage rest
      end
  end.

Definition imageOf (response : Response) : option string :=
  match firstParts response with
  | Some ps => firstInlineImage ps
  | None => None
  end.

Definition imageRequest (city country : string) : Request :=
  let model := "gemini-2.5-flash-image" in
  let prompt :=
    Text ("Generate a photorealistic, cinematic wide-angle travel photography image of "
          ++ city ++ ", " ++ country
          ++ ", showcasing its most iconic landmark or skyline. High quality, detailed, daylight.")%string in
  mkRequest model prompt (ImageConfig "16:9").

Definition generateCityImage (h : Host) (city country : string)
  : Outcome (option string) :=
  tryCatch
    (response <- generateContent h (imageRequest city country) ;;
     Returned (imageOf response))
    (fun _ => Returned None).

(** [Promise.all]: fulfilled with every value, in order, or rejected.
    With several rejections the reason is that of the first to settle;
    no caller looks at the reason, so the leftmost is taken. *)
Fixpoint promiseAll {A} (ps : list (Outcome A)) : Outcome (list A) :=
  match ps with
  | [] => Returned []
  | p :: rest =>
      a <- p ;;
      r <- promiseAll rest ;;
      Returned (a :: r)
  end.

(** [results.filter(img => img !== undefined)] *)
Fixpoint definedOnly (results : list (option string)) : list string :=
  match results with
  | [] => []
  | Some img :: rest => img :: definedOnly rest
  | None :: rest => definedOnly rest
  end.

Definition galleryPrompts (city country : string) : list string :=
  [ ("Famous historic landmark or architecture in " ++ city ++ ", " ++ country
     ++ ", photorealistic travel photography, 4k")%string;
    ("Delicious local street food or traditional dish of " ++ city ++ ", "
     ++ country ++ ", professional food photography")%string;
    ("Vibrant street life or cultural scene in " ++ city ++ ", " ++ country
     ++ ", cinematic lighting")%string ].

Definition galleryRequest (prompt : string) : Request :=
  let model := "gemini-2.5-flash-image" in
  mkRequest model (Text prompt) (ImageConfig "4:3").

Definition generateCityGallery (h : Host) (city country : string)
  : Outcome (list string) :=
  let prompts := galleryPrompts city country in
  tryCatch
    (let promises :=
       map (fun prompt =>
              tryCatch
                (response <- generateContent h (galleryRequest prompt) ;;
                 Returned (imageOf response))
                (fun _ => Returned None))
           prompts in
     results <- promiseAll promises ;;
     Returned (definedOnly results))
    (fun _ => Returned []).

End Gemini.

(** ** App.tsx *)
Module App.
Import Js Notations.

Record State := mkState {
  data : option Object;
  loading : bool;
  error : option string;
  bgIndex : nat
}.

Definition initial : State := mkState None false None 0.

Definition setData (d : option Object) (st : State) : State :=
  mkState d (loading st) (error st) (bgIndex st).
Definition setLoading (b : bool) (st : State) : State :=
  mkState (data st) b (error st) (bgIndex st).
Definition setError (e : option string) (st : State) : State :=
  mkState (data st) (loading st) e (bgIndex st).

(** [{ ...guideData, imageUrl, gallery: galleryImages }] *)
Definition combine (guideData : Object) (imageUrl : option string)
           (galleryImages : list string) : Object :=
  setProp (setProp guideData "imageUrl" (ofOptString imageUrl))
          "gallery" (JArr (map JStr galleryImages)).

(** The three promises handed to [Promise.all]. *)
Definition all3 {A B C} (a : Outcome A) (b : Outcome B) (c : Outcome C)
  : Outcome (A * B * C) :=
  x <- a ;; y <- b ;; z <- c ;; Returned (x, y, z).

Definition failureMessage : string :=
  "Failed to generate guide. Please check your API key and try again.".

Definition handleFormSubmit (h : Gemini.Host) (formData : TravelForm.FormState)
           (st : State) : State :=
  let st := setLoading true st in
  let st := setError None st in
  let st :=
    match
      all3 (Gemini.generateCityGuide h (TravelForm.fd_city formData)
              (TravelForm.fd_country formData) (TravelForm.fd_duration formData))
           (Gemini.generateCityImage h (TravelForm.fd_city formData)
              (TravelForm.fd_country formData))
           (Gemini.generateCityGallery h (TravelForm.fd_city formData)
              (TravelForm.fd_country formData))
    with
    | Returned (guideData, imageUrl, galleryImages) =>
        setData (Some (combine guideData imageUrl galleryImages)) st
    | Thrown err =>
        setError (Some failureMessage) st
    end in
  setLoading false st.

Definition handleReset (st : State) : State :=
  setError None (setData None st).

(** [<TravelForm onSubmit={handleFormSubmit} />]: a submit event of the
    form, seen from the application. *)
Definition formSubmitEvent (h : Gemini.Host) (form : TravelForm.State)
           (st : State) : State :=
  fold_left (fun s fd => handleFormSubmit h fd s)
            (TravelForm.submitted (TravelForm.handleSubmit form)) st.

End App.


(** ** components/ResultView.tsx: tabs, map style and the map jump *)
Module ResultView.
Import Js Notations.

Inductive TabType := weather | attractions | map | itinerary | tips | photos.
Inductive MapStyle := street | satellite.

Definition TabType_eqb (a b : TabType) : bool :=
  match a, b with
  | weather, weather | attractions, attractions | map, map
  | itinerary, itinerary | tips, tips | photos, photos => true
  | _, _ => false
  end.

(** The Leaflet map as the component uses it: a view that [setView]
    moves. *)
Record LeafletMap := mkMap { center : float * float; zoom : Z }.

(** A callback handed to [setTimeout] by [jumpToMap] and not yet run: the
    closure with the [lat] and [lng] it captured.  (The effect that
    creates the map queues a callback of its own, which opens the popup
    of the city marker inside Leaflet; [timers] holds the jump callbacks
    only.) *)
Inductive Timer := JumpTimer (lat lng : float).

Record State := mkState {
  activeTab : TabType;
  mapStyle : MapStyle;
  mapRef : option LeafletMap;       (* mapRef.current *)
  timers : list Timer
}.

Definition initial : State := mkState weather street None [].

(** [ref.setView([lat, lng], z, ...)]: a method call on [null] throws.
    On a map the view asked for is recorded; what Leaflet itself does
    with the numbers (it refuses some, such as [NaN]) is not in the
    sources, and nothing stated for a run in which a map exists says
    more than which view was asked for. *)
Definition setView (ref : option LeafletMap) (lat lng : float) (z : Z)
  : Outcome (option LeafletMap) :=
  match ref with
  | None => Thrown TypeError
  | Some _ => Returned (Some (mkMap (lat, lng) z))
  end.

(** [setActiveTab(id)], with the clean-up of the second effect: the
    clean-up closure belongs to the render being left and removes the
    map when that render's tab was not the map tab.  Setting the tab it
    already has does not render again. *)
Definition setActiveTab (id : TabType) (st : State) : State :=
  if TabType_eqb id (activeTab st) then st
  else
    let ref := if negb (TabType_eqb (activeTab st) map) then None
               else mapRef st in
    mkState id (mapStyle st) ref (timers st).

Definition toggleMapStyle (st : State) : State :=
  mkState (activeTab st)
          (match mapStyle st with street => satellite | satellite => street end)
          (mapRef st) (timers st).

(** The numeric coordinates of [data], as the first effect tests them. *)
Definition numericCoordinates (data : Object) : option (float * float) :=
  match lookup "coordinates" data with
  | JObj c =>
      match lookup "lat" c, lookup "lng" c with
      | JNum lat, JNum lng => Some (lat, lng)
      | _, _ => None
      end
  | _ => None
  end.

(** First effect, map creation: it needs the map tab, the Leaflet global
    ([leaflet] tells whether [window.L] is there) and numeric
    coordinates, and creates the map once. *)
Definition initMapEffect (leaflet : bool) (data : Object) (st : State)
  : State :=
  if TabType_eqb (activeTab st) map && leaflet then
    match numericCoordinates data, mapRef st with
    | Some c, None =>
        mkState (activeTab st) (mapStyle st) (Some (mkMap c 13)) (timers st)
    | _, _ => st
    end
  else st.

Definition jumpToMap (lat lng : float) (st : State) : State :=
  let st := setActiveTab map st in
  mkState (activeTab st) (mapStyle st) (mapRef st)
          (timers st ++ [JumpTimer lat lng]).

(** The body of the deferred callback. *)
Definition runTimer (t : Timer) (st : State) : Outcome State :=
  match t with
  | JumpTimer lat lng =>
      match mapRef st with
      | Some _ =>
          ref <- setView (mapRef st) lat lng 15 ;;
          Returned (mkState (activeTab st) (mapStyle st) ref (timers st))
      | None => Returned st
      end
  end.

(** What can happen to a mounted view. *)
Inductive Event :=
| SelectTab (id : TabType)
| ToggleMapStyle
| JumpToAttraction (lat lng : float)
| InitMap (leaflet : bool)
| Timeout.                           (* the oldest pending timer is due *)

Definition step (data : Object) (st : State) (ev : Event) : Outcome State :=
  match ev with
  | SelectTab id => Returned (setActiveTab id st)
  | ToggleMapStyle => Returned (toggleMapStyle st)
  | JumpToAttraction lat lng => Returned (jumpToMap lat lng st)
  | InitMap leaflet => Returned (initMapEffect leaflet data st)
  | Timeout =>
      match timers st with
      | [] => Returned st
      | t :: rest =>
          runTimer t (mkState (activeTab st) (mapStyle st) (mapRef st) rest)
      end
  end.

Fixpoint steps (data : Object) (st : State) (evs : list Event)
  : Outcome State :=
  match evs with
  | [] => Returned st
  | ev :: rest => st' <- step data st ev ;; steps data st' rest
  end.

End ResultView.

(** ** The vocabulary of the specification *)
Module Spec.
Import JsString.

(** Equal without regard to letter case. *)
Definition eq_ci (a b : string) : Prop := toLowerCase a = toLowerCase b.

(** [s] starts with [p], case-insensitively. *)
Definition starts_with_ci (s p : string) : Prop :=
  exists pre rest, s = (pre ++ rest)%string /\ eq_ci pre p.

(** [s] contains [c], case-insensitively. *)
Definition contains_ci (s c : string) : Prop :=
  exists a m b, s = (a ++ m ++ b)%string /\ eq_ci m c.

(** Empty, or white space only. *)
Definition blank (s : string) : Prop := trim s = "".

(** [Selects Q d r]: [r] is exactly the entries of [d] that satisfy
    [Q], in the order of [d]. *)
Inductive Selects {A : Type} (Q : A -> Prop) : list A -> list A -> Prop :=
| Selects_nil : Selects Q [] []
| Selects_keep x d r : Q x -> Selects Q d r -> Selects Q (x :: d) (x :: r)
| Selects_skip x d r : ~ Q x -> Selects Q d r -> Selects Q (x :: d) r.

(** The distinct members of a list, each at the place where it is first
    seen. *)
Fixpoint firstSeen (xs : list string) : list string :=
  match xs with
  | [] => []
  | x :: rest => x :: filter (fun y => negb (String.eqb y x)) (firstSeen rest)
  end.

(** A name that does not begin with white space. *)
Definition startsWithLetter (s : string) : bool :=
  match s with
  | EmptyString => true
  | String b _ => negb (isWhiteSpace b)
  end.

(** The decimal numeral of a natural number, as a number input holds
    it. *)
Definition decimalNumeral (n : N) : string :=
  DecimalString.NilEmpty.string_of_uint (N.to_uint n).

(** The nine fields of [CityGuideData] the service fills. *)
Definition guideFields : list string :=
  [ "city"; "country"; "coordinates"; "introduction"; "weather";
    "attractions"; "mapContext"; "itinerary"; "localTips" ].

Definition listFields : list string :=
  [ "attractions"; "itinerary"; "localTips" ].

(** *** Well-formedness after types.ts *)
Import Js.

Definition isString (v : Value) : bool :=
  match v with JStr _ => true | _ => false end.
Definition isNumber (v : Value) : bool :=
  match v with JNum _ => true | _ => false end.

Definition isCoordinates (v : Value) : bool :=
  match v with
  | JObj c => isNumber (lookup "lat" c) && isNumber (lookup "lng" c)
  | _ => false
  end.

Definition isWeatherSummary (v : Value) : bool :=
  match v with
  | JObj w => isString (lookup "temperature" w)
              && isString (lookup "condition" w)
              && isString (lookup "packingSuggestion" w)
  | _ => false
  end.

Definition isAttraction (v : Value) : bool :=
  match v with
  | JObj a => isString (lookup "name" a) && isString (lookup "benefit" a)
              && isCoordinates (lookup "coordinates" a)
  | _ => false
  end.

Definition isItineraryActivity (v : Value) : bool :=
  match v with
  | JObj a => isString (lookup "time" a) && isString (lookup "activity" a)
  | _ => false
  end.

Definition isArrayOf (item : Value -> bool) (v : Value) : bool :=
  match v with JArr l => forallb item l | _ => false end.

Definition isDailyItinerary (v : Value) : bool :=
  match v with
  | JObj d => isNumber (lookup "day" d) && isString (lookup "theme" d)
              && isArrayOf isItineraryActivity (lookup "activities" d)
  | _ => false
  end.

Definition isLocalTip (v : Value) : bool :=
  match v with
  | JObj t => isString (lookup "category" t) && isString (lookup "tip" t)
  | _ => false
  end.

(** Every field of [CityGuideData] the service is asked for is present
    with the type types.ts gives it. *)
Definition wellFormedGuide (v : Value) : bool :=
  match v with
  | JObj g =>
      isString (lookup "city" g) && isString (lookup "country" g)
      && isCoordinates (lookup "coordinates" g)
      && isString (lookup "introduction" g)
      && isWeatherSummary (lookup "weather" g)
      && isArrayOf isAttraction (lookup "attractions" g)
      && isString (lookup "mapContext" g)
      && isArrayOf isDailyItinerary (lookup "itinerary" g)
      && isArrayOf isLocalTip (lookup "localTips" g)
  | _ => false
  end.

(** The four text fields hold text. *)
Definition textFieldsNonEmpty (v : Value) : bool :=
  match v with
  | JObj g =>
      ToBoolean (lookup "city" g) && ToBoolean (lookup "country" g)
      && ToBoolean (lookup "introduction" g) && ToBoolean (lookup "mapContext" g)
  | _ => false
  end.

Import Gemini.

(** What the hero-image request comes to: the image of the reply, nothing
    when the request fails. *)
Definition heroImage (h : Host) (city country : string) : option string :=
match generateContent h (imageRequest city country) with
| Returned response => imageOf response
| Thrown _ => None
end.

(** The same for one gallery prompt. *)
Definition galleryImage (h : Host) (prompt : string) : option string :=
match generateContent h (galleryRequest prompt) with
| Returned response => imageOf response
| Thrown _ => None
end.

(** The gallery sub-requests that succeed, in prompt order. *)
Definition galleryImages (h : Host) (city country : string) : list string :=
definedOnly (map (galleryImage h) (galleryPrompts city country)).

(** The application after a failed and after a successful submission. *)
Definition failed (st : App.State) : App.State :=
App.mkState (App.data st) false (Some App.failureMessage) (App.bgIndex st).

Definition succeeded (st : App.State) (guide : Object) : App.State :=
App.mkState (Some guide) false None (App.bgIndex st).

(** The structured-content request fails: it is rejected, or its reply
    has no text, or the text does not parse, or it parses to [null]. *)
Definition contentFails (h : Host) (city country duration : string) : Prop :=
(exists e, generateContent h (guideRequest h city country duration) = Thrown e)
\/ (exists response,
     generateContent h (guideRequest h city country duration) = Returned response
     /\ (text response = None
         \/ text response = Some ""%string
         \/ exists jsonText,
              text response = Some jsonText
              /\ ((exists e, JSON_parse h jsonText = Thrown e)
                  \/ JSON_parse h jsonText = Returned null))).

(** The structured-content request is answered with text that parses to
    [parsedData]. *)
Definition contentParses (h : Host) (city country duration : string)
         (parsedData : Value) : Prop :=
exists response jsonText,
  generateContent h (guideRequest h city country duration) = Returned response
  /\ text response = Some jsonText
  /\ jsonText <> ""%string
  /\ JSON_parse h jsonText = Returned parsedData.

(** The value the reply holds for a field: what the property read gives
    when it does not throw. *)
Definition field (parsedData : Value) (f : string) : Value :=
match parsedData with
| JObj props => lookup f props
| _ => undefined
end.

Definition textFields : list string :=
[ "city"; "country"; "introduction"; "mapContext" ].

(** The sanitising step keeps the value of the reply for a field: a list
    field when it is an array, any other field when it is truthy. *)
Definition kept (parsedData : Value) (f : string) : bool :=
if existsb (String.eqb f) listFields
then isArray (field parsedData f)
else ToBoolean (field parsedData f).

(** A reply with every field filled in and typed, whose introduction is
    the empty string. *)
Definition emptyIntroductionGuide : Value :=
JObj [ ("city", JStr "Rome"); ("country", JStr "Italy");
       ("coordinates", JObj [("lat", JNum 41.875%float); ("lng", JNum 12.5%float)]);
       ("introduction", JStr "");
       ("weather", JObj [("temperature", JStr "24C"); ("condition", JStr "Sunny");
                         ("packingSuggestion", JStr "Hat")]);
       ("attractions",
         JArr [JObj [("name", JStr "Colosseum"); ("benefit", JStr "History");
                     ("coordinates",
                       JObj [("lat", JNum 41.75%float); ("lng", JNum 12.25%float)])]]);
       ("mapContext", JStr "Seven hills by the Tiber");
       ("itinerary",
         JArr [JObj [("day", JNum 1%float); ("theme", JStr "Ancient Rome");
                     ("activities",
                       JArr [JObj [("time", JStr "09:00");
                                   ("activity", JStr "Forum")]])]]);
       ("localTips", JArr [JObj [("category", JStr "food"); ("tip", JStr "Espresso")]]) ].

(** *** Test doubles for the host *)

Definition pngPart (payload : string) : Response :=
  mkResponse None
    (Some [mkCandidate (Some (mkContent (Some
       [mkPart None; mkPart (Some (mkBlob (Some "image/png") (Some payload)))])))]).

(** A [JSON.parse] for the two documents the doubles reply with. *)
Definition parseStub (doc : Value) (s : string) : Outcome Value :=
  if String.eqb s "{}" then Returned (JObj [])
  else if String.eqb s "doc" then Returned doc
  else Thrown SyntaxError.

(** A service whose hero image and street-food image fail while the
    landmark and street-life images succeed; the guide reply is [reply]. *)
Definition flakyImages (reply : Outcome Response) (doc : Value) : Host :=
  mkHost
    (fun req =>
       match contents req with
       | GuidePrompt _ _ _ _ => reply
       | Text p =>
           if startsWith p "Generate" then Thrown (ApiError 500)
           else if startsWith p "Delicious" then Thrown (ApiError 429)
           else if startsWith p "Famous" then Returned (pngPart "AAAA")
           else Returned (pngPart "BBBB")
       end)
    (parseStub doc)
    "May 2025".

(** The service down for the guide, and the service answering the guide
    with an empty object. *)
Definition guideDown : Host := flakyImages (Thrown (ApiError 503)) null.

Definition guideEmpty : Host :=
  flakyImages (Returned (mkResponse (Some "{}"%string) None)) null.

(** Form states used as inputs. *)
Definition romeThreeDays : TravelForm.FormState :=
  TravelForm.mkFormState "Rome" "Italy" "3".

Definition romeNinetyNineDays : TravelForm.State :=
  TravelForm.mkState (TravelForm.mkFormState "Rome" "Italy" "99")
                     None [] [] false false.

Definition blankCountry : TravelForm.State :=
  TravelForm.mkState (TravelForm.mkFormState "Rome" "   " "3")
                     (Some "country"%string) [] [] false true.

Definition countryTyped : TravelForm.State :=
  TravelForm.mkState (TravelForm.mkFormState "" "france" "")
                     None [] [] false false.

End Spec.

(** ** components/TravelForm.tsx: the remaining handlers and the wiring *)
Module TravelFormEvents.
Import JsString TravelForm.

(** [onFocus] of the country input. *)
Definition handleCountryFocus : Handler := fun st =>
  setActiveField (Some "country"%string)
  :: if truthy (fd_country (formData st))
     then [ setShowCountryDropdown true ]
     else [].

(** [onFocus] of the duration input. *)
Definition handleDurationFocus : Handler := fun _ =>
  [ setActiveField (Some "duration"%string) ].

(** [onBlur] of the three inputs. *)
Definition handleBlur : Handler := fun _ => [ setActiveField None ].

(** Where a [mousedown] lands: inside the wrapper of the city field,
    inside the wrapper of the country field (the two are siblings), or
    anywhere else.  Both refs are set when the listener is installed. *)
Inductive ClickTarget := InCityWrapper | InCountryWrapper | Elsewhere.

Definition handleClickOutside (target : ClickTarget) : Handler := fun _ =>
  (match target with
   | InCityWrapper => []
   | _ => [ setShowCityDropdown false ]
   end)
  ++ (match target with
      | InCountryWrapper => []
      | _ => [ setShowCountryDropdown false ]
      end).

(** Two handlers run for one event: both see the same render. *)
Definition runBoth (h1 h2 : Handler) (st : State) : State :=
  fold_left reduce (h1 st ++ h2 st) st.

(** The list of city suggestions is on screen. *)
Definition cityDropdownVisible (st : State) : bool :=
  showCityDropdown st && (0 <? List.length (citySuggestions st))%nat.

Definition countryDropdownVisible (st : State) : bool :=
  showCountryDropdown st && (0 <? List.length (countrySuggestions st))%nat.

(** What the user can do to the form.  A suggestion is picked by a
    [mousedown] on its list item, which the document listener sees too. *)
Inductive Event :=
| TypeCity (value : string)
| TypeCountry (value : string)
| TypeDuration (value : string)
| FocusCity
| FocusCountry
| FocusDuration
| Blur
| MouseDown (target : ClickTarget)
| PickCity (idx : nat)
| PickCountry (idx : nat)
| Submit.

Definition dispatch (st : State) (ev : Event) : State :=
  match ev with
  | TypeCity value => run (handleCityChange value) st
  | TypeCountry value => run (handleCountryChange value) st
  | TypeDuration value => run (handleDurationChange value) st
  | FocusCity => run handleCityFocus st
  | FocusCountry => run handleCountryFocus st
  | FocusDuration => run handleDurationFocus st
  | Blur => run handleBlur st
  | MouseDown target => run (handleClickOutside target) st
  | PickCity idx =>
      if cityDropdownVisible st then
        match nth_error (citySuggestions st) idx with
        | Some item =>
            runBoth (selectCity (city item) (country item))
                    (handleClickOutside InCityWrapper) st
        | None => st
        end
      else st
  | PickCountry idx =>
      if countryDropdownVisible st then
        match nth_error (countrySuggestions st) idx with
        | Some item =>
            runBoth (selectCountry item)
                    (handleClickOutside InCountryWrapper) st
        | None => st
        end
      else st
  | Submit => run handleSubmit st
  end.

(** The form states handed to [onSubmit] along a sequence of events. *)
Fixpoint submissions (st : State) (evs : list Event) : list FormState :=
  match evs with
  | [] => []
  | ev :: rest =>
      (match ev with
       | Submit => submitted (handleSubmit st)
       | _ => []
       end) ++ submissions (dispatch st ev) rest
  end.

End TravelFormEvents.

(** ** App.tsx: the background slideshow and what is on screen *)
Module AppEvents.
Import Js App.

Definition LANDING_BACKGROUNDS : list string :=
  [ "https://images.unsplash.com/photo-1499856871940-a09627c6d7db?q=80&w=2070&auto=format&fit=crop";
    "https://images.unsplash.com/photo-1502602898657-3e91760cbb34?q=80&w=2073&auto=format&fit=crop";
    "https://images.unsplash.com/photo-1533929736472-594e45aa8616?q=80&w=2070&auto=format&fit=crop";
    "https://images.unsplash.com/photo-1540959733332-eab4deabeeaf?q=80&w=1988&auto=format&fit=crop";
    "https://images.unsplash.com/photo-1496442226666-8d4a0e62e6e9?q=80&w=2070&auto=format&fit=crop";
    "https://images.unsplash.com/photo-1523906834658-6e24ef2386f9?q=80&w=1966&auto=format&fit=crop";
    "https://images.unsplash.com/photo-1506929562872-bb421503ef21?q=80&w=2068&auto=format&fit=crop" ]%string.

Definition setBgIndex (upd : nat -> nat) (st : State) : State :=
  mkState (data st) (loading st) (error st) (upd (bgIndex st)).

(** One period of the interval of the first effect; the effect installs
    no interval while a guide is shown. *)
Definition rotateBackground (st : State) : State :=
  match data st with
  | Some _ => st
  | None =>
      setBgIndex (fun prev => (prev + 1) mod List.length LANDING_BACKGROUNDS) st
  end.

(** What can happen to the application: the form is rendered only while
    there is no guide, the result view with its back button only while
    there is one. *)
Inductive Event :=
| FormSubmit (form : TravelForm.State)
| Back
| Tick.

Definition step (h : Gemini.Host) (st : State) (ev : Event) : State :=
  match ev with
  | FormSubmit form =>
      match data st with
      | None => formSubmitEvent h form st
      | Some _ => st
      end
  | Back =>
      match data st with
      | Some _ => handleReset st
      | None => st
      end
  | Tick => rotateBackground st
  end.

End AppEvents.

(** ** More vocabulary *)
Module SpecExtra.
Import JsString Js Gemini.

(** A data URL with a payload. *)
Definition isDataUrl (u : string) : Prop :=
  exists mime payload,
    u = ("data:" ++ mime ++ ";base64," ++ payload)%string
    /\ payload <> ""%string.

(** What [imageUrl] may hold. *)
Definition absentOrDataUrl (o : option string) : Prop :=
  match o with
  | Some u => isDataUrl u
  | None => True
  end.

(** The guide made of defaults only. *)
Definition defaultGuide (city country : string) : Object :=
  [ ("city", JStr city);
    ("country", JStr country);
    ("coordinates", defaultCoordinates);
    ("introduction", JStr "Information currently unavailable.");
    ("weather", defaultWeather);
    ("attractions", JArr []);
    ("mapContext", JStr "Map details unavailable.");
    ("itinerary", JArr []);
    ("localTips", JArr []) ]%string.

(** Valid JSON that is neither an object nor [null]. *)
Definition isPrimitiveOrArray (v : Value) : bool :=
  match v with
  | JBool _ | JNum _ | JStr _ | JArr _ => true
  | undefined | null | JObj _ => false
  end.

Fixpoint allWhiteSpace (s : string) : bool :=
  match s with
  | EmptyString => true
  | String c s' => isWhiteSpace c && allWhiteSpace s'
  end.

(** What may follow a numeral without changing what [parseInt] reads:
    nothing, or text that begins neither with a decimal digit nor with
    [x] or [X]. *)
Definition endsNumeral (rest : string) : bool :=
  match rest with
  | EmptyString => true
  | String c _ =>
      negb (match digitValue c with
            | Some d => (d <? 10)%N
            | None => false
            end)
      && negb (Ascii.eqb c "x") && negb (Ascii.eqb c "X")
  end.

(** Everything the two dropdowns hold comes from the directory, and no
    country is offered twice. *)
Definition suggestionsFromDirectory (st : TravelForm.State) : Prop :=
  Forall (fun loc => In loc TravelForm.POPULAR_LOCATIONS)
         (TravelForm.citySuggestions st)
  /\ NoDup (TravelForm.countrySuggestions st)
  /\ incl (TravelForm.countrySuggestions st)
          (map TravelForm.country TravelForm.POPULAR_LOCATIONS).

(** What the application shows is consistent: the slideshow index names
    a background, nothing is loading, and a guide and the error banner
    are not there together. *)
Definition screenConsistent (st : App.State) : Prop :=
  App.bgIndex st < List.length AppEvents.LANDING_BACKGROUNDS
  /\ App.loading st = false
  /\ (App.data st = None \/ App.error st = None).


(** The three ways to write a sign. *)
Inductive Sign := NoSign | Plus | Minus.

Definition signText (sg : Sign) : string :=
  match sg with NoSign => "" | Plus => "+" | Minus => "-" end.

Definition isMinus (sg : Sign) : bool :=
  match sg with Minus => true | _ => false end.

End SpecExtra.

(** ** components/TravelForm.tsx: the constraints declared on the inputs

    The three inputs are [required], the duration input is
    [type="number" min="1" max="14"] with no [step], and the form has no
    [noValidate]: a submit request of the user (the button, the Enter
    key) fires the [submit] event, and so runs [handleSubmit], only when
    every input satisfies its constraints. *)
Module FormConstraints.
Import JsString TravelForm.

(** The user agent's side of a number input: the number it reads in the
    text, none when the text is not a floating-point number. *)
Record UserAgent := mkUserAgent {
  valueAsNumber : string -> option QArith_base.Q
}.

(** [required]: the value is missing when it is the empty string. *)
Definition valueMissing (value : string) : bool := negb (truthy value).

Definition durationMin : QArith_base.Q := QArith_base.inject_Z 1.
Definition durationMax : QArith_base.Q := QArith_base.inject_Z 14.

(** A whole number of steps: with no [step] attribute the step is 1. *)
Definition isIntegral (x : QArith_base.Q) : bool :=
  Pos.eqb (QArith_base.Qden (Qreduction.Qred x)) 1.

(** The duration input suffers from no missing value, bad input, range
    underflow, range overflow or step mismatch (the step base is
    [min]). *)
Definition durationValid (ua : UserAgent) (value : string) : bool :=
  negb (valueMissing value)
  && match valueAsNumber ua value with
     | None => false
     | Some x =>
         QArith_base.Qle_bool durationMin x
         && QArith_base.Qle_bool x durationMax
         && isIntegral (QArith_base.Qminus x durationMin)
     end.

Definition checkValidity (ua : UserAgent) (fd : FormState) : bool :=
  negb (valueMissing (fd_city fd))
  && negb (valueMissing (fd_country fd))
  && durationValid ua (fd_duration fd).

(** A submit request of the user. *)
Definition requestSubmit (ua : UserAgent) : Handler := fun st =>
  if checkValidity ua (formData st) then handleSubmit st else [].



End FormConstraints.

(** ** Facts about the string primitives *)
Module JsStringFacts.
Import JsString Spec.

Lemma toLowerCase_app a b :
  toLowerCase (a ++ b) = (toLowerCase a ++ toLowerCase b)%string.
Proof. induction a as [|c a IH]; simpl; [reflexivity | now rewrite IH]. Qed.

Lemma whitespace_lowerChar c : isWhiteSpace c = true -> lowerChar c = c.
Proof.
  destruct c as [[] [] [] [] [] [] [] []]; vm_compute; congruence.
Qed.

Lemma whitespace_of_lowerChar c :
  isWhiteSpace (lowerChar c) = true -> isWhiteSpace c = true.
Proof.
  destruct c as [[] [] [] [] [] [] [] []]; vm_compute; congruence.
Qed.

Lemma startsWith_app s p :
  startsWith s p = true <-> exists rest, s = (p ++ rest)%string.
Proof.
  revert s; induction p as [|a p IH]; intros s; simpl.
  - split; [intros _; now exists s | reflexivity].
  - destruct s as [|b s].
    + split; [discriminate | intros [rest H]; discriminate].
    + rewrite andb_true_iff, Ascii.eqb_eq, IH. split.
      * intros [-> [rest ->]]. now exists rest.
      * intros [rest H]. injection H as -> ->. split; [reflexivity | now exists rest].
Qed.

(** The test the handlers make for the city and the country prefix. *)
Lemma startsWith_ci s p :
  startsWith (toLowerCase s) (toLowerCase p) = true <-> starts_with_ci s p.
Proof.
  unfold starts_with_ci, eq_ci.
  revert s; induction p as [|a p IH]; intros s; simpl.
  - split; [intros _; exists ""%string, s; now split | reflexivity].
  - destruct s as [|b s]; simpl.
    + split; [discriminate |].
      intros (pre & rest & H & E). destruct pre; simpl in *; discriminate.
    + rewrite andb_true_iff, Ascii.eqb_eq, IH. split.
      * intros [Hc (pre & rest & -> & E)].
        exists (String b pre), rest. simpl. split; [reflexivity |].
        now rewrite E, Hc.
      * intros (pre & rest & H & E).
        destruct pre as [|c pre]; simpl in *; [discriminate |].
        injection H as -> ->. injection E as Hc E.
        split; [now symmetry | now exists pre, rest].
Qed.

Lemma contains_ci_cons x s c :
  contains_ci (String x s) c <-> starts_with_ci (String x s) c \/ contains_ci s c.
Proof.
  unfold contains_ci, starts_with_ci. split.
  - intros (a & m & b & H & E). destruct a as [|y a]; simpl in H.
    + left. now exists m, b.
    + right. injection H as -> ->. now exists a, m, b.
  - intros [(pre & rest & H & E) | (a & m & b & -> & E)].
    + exists ""%string, pre, rest. now split.
    + exists (String x a), m, b. now split.
Qed.

Lemma contains_ci_empty c :
  contains_ci "" c <-> starts_with_ci "" c.
Proof.
  unfold contains_ci, starts_with_ci. split.
  - intros (a & m & b & H & E). destruct a; [|discriminate].
    simpl in H. now exists m, b.
  - intros (pre & rest & H & E). exists ""%string, pre, rest. now split.
Qed.

(** The test [handleCityChange] makes for the country. *)
Lemma includes_ci s c :
  includes (toLowerCase s) (toLowerCase c) = true <-> contains_ci s c.
Proof.
  induction s as [|x s IH].
  - rewrite contains_ci_empty, <- startsWith_ci. simpl.
    now rewrite orb_false_r.
  - rewrite contains_ci_cons, <- startsWith_ci, <- IH.
    simpl. rewrite orb_true_iff. reflexivity.
Qed.

Lemma eqb_ci a b :
  String.eqb (toLowerCase a) (toLowerCase b) = true <-> eq_ci a b.
Proof. apply String.eqb_eq. Qed.

Lemma truthy_false s : truthy s = false <-> s = ""%string.
Proof. destruct s; simpl; split; congruence. Qed.

Lemma truthy_true s : truthy s = true <-> s <> ""%string.
Proof. destruct s; simpl; split; congruence. Qed.

Lemma trimEnd_empty c s :
  trimEnd (String c s) = ""%string -> isWhiteSpace c = true.
Proof.
  simpl. destruct (trimEnd s); [|discriminate].
  destruct (isWhiteSpace c); [reflexivity | discriminate].
Qed.

(** A blank string that is not empty begins with white space. *)
Lemma blank_head c s : blank (String c s) -> isWhiteSpace c = true.
Proof.
  unfold blank, trim. simpl trimStart.
  destruct (isWhiteSpace c) eqn:E; [reflexivity |].
  intros H. apply trimEnd_empty in H. congruence.
Qed.

Lemma length_positive s :
  (0 <? String.length s)%nat = truthy s.
Proof. destruct s; reflexivity. Qed.

(** Nothing that begins with a letter starts with a blank prefix. *)
Lemma blank_prefix_no_match p s :
  p <> ""%string -> blank p ->
  match s with
  | EmptyString => True
  | String b _ => isWhiteSpace b = false
  end ->
  ~ starts_with_ci s p.
Proof.
  intros Hne Hb Hs Hm. apply startsWith_ci in Hm.
  destruct p as [|c p]; [congruence |].
  apply blank_head in Hb.
  destruct s as [|b s]; simpl in Hm; [discriminate |].
  apply andb_true_iff in Hm as [Hc _]. apply Ascii.eqb_eq in Hc.
  rewrite (whitespace_lowerChar _ Hb) in Hc.
  assert (isWhiteSpace (lowerChar b) = true) by now rewrite <- Hc.
  apply whitespace_of_lowerChar in H. congruence.
Qed.

End JsStringFacts.

(** ** Facts about selections and first-seen lists *)
Module ListFacts.
Import Spec.

Lemma filter_Selects {A} (f : A -> bool) (Q : A -> Prop) d :
  (forall x, f x = true <-> Q x) -> Selects Q d (filter f d).
Proof.
  intros Hf. induction d as [|x d IH]; simpl; [constructor |].
  destruct (f x) eqn:E.
  - apply Selects_keep; [now apply Hf | exact IH].
  - apply Selects_skip; [| exact IH].
    intros HQ. apply Hf in HQ. congruence.
Qed.

Lemma none_Selects {A} (Q : A -> Prop) d :
  (forall x, In x d -> ~ Q x) -> Selects Q d [].
Proof.
  induction d as [|x d IH]; intros H; [constructor |].
  apply Selects_skip; [apply H; now left |].
  apply IH. intros y Hy. apply H. now right.
Qed.

Lemma Selects_iff {A} (Q Q' : A -> Prop) d r :
  (forall x, Q x <-> Q' x) -> Selects Q d r -> Selects Q' d r.
Proof.
  intros HQ. induction 1 as [|x d r Hx _ IH|x d r Hx _ IH].
  - constructor.
  - apply Selects_keep; [now apply HQ | exact IH].
  - apply Selects_skip; [now rewrite <- HQ | exact IH].
Qed.

Lemma Selects_In {A} (Q : A -> Prop) d r :
  Selects Q d r -> forall x, In x r <-> In x d /\ Q x.
Proof.
  induction 1 as [|y d r Hy _ IH|y d r Hy _ IH]; intros x; simpl.
  - tauto.
  - rewrite IH. split.
    + intros [<- | [H1 H2]]; auto.
    + intros [[<- | H1] H2]; auto.
  - rewrite IH. split.
    + intros [H1 H2]; auto.
    + intros [[<- | H1] H2]; [contradiction | auto].
Qed.

Lemma filter_all {A} (f : A -> bool) l :
  (forall x, In x l -> f x = true) -> filter f l = l.
Proof.
  induction l as [|x l IH]; intros H; simpl; [reflexivity |].
  rewrite (H x (or_introl eq_refl)), IH; [reflexivity |].
  intros y Hy. apply H. now right.
Qed.

Lemma filter_comm {A} (f g : A -> bool) l :
  filter f (filter g l) = filter g (filter f l).
Proof.
  induction l as [|x l IH]; simpl; [reflexivity |].
  destruct (f x) eqn:Ef, (g x) eqn:Eg; simpl;
    rewrite ?Ef, ?Eg, IH; reflexivity.
Qed.

Lemma firstSeen_In xs x : In x (firstSeen xs) <-> In x xs.
Proof.
  induction xs as [|y xs IH]; simpl; [tauto |].
  rewrite filter_In, IH, negb_true_iff, String.eqb_neq.
  destruct (String.eqb_spec x y) as [->|Hne]; [tauto |].
  split; [tauto |]. intros [H | H]; [now symmetry in H | auto].
Qed.

Lemma firstSeen_NoDup xs : NoDup (firstSeen xs).
Proof.
  induction xs as [|y xs IH]; simpl; constructor.
  - rewrite filter_In, negb_true_iff, String.eqb_neq. tauto.
  - now apply NoDup_filter.
Qed.

(** Filtering before or after collapsing duplicates is the same. *)
Lemma firstSeen_filter (f : string -> bool) xs :
  firstSeen (filter f xs) = filter f (firstSeen xs).
Proof.
  induction xs as [|y xs IH]; simpl; [reflexivity |].
  destruct (f y) eqn:E; simpl.
  - now rewrite IH, filter_comm.
  - rewrite filter_comm, <- IH. symmetry. apply filter_all.
    intros x Hx. apply firstSeen_In, filter_In in Hx as [_ Hx].
    apply negb_true_iff, String.eqb_neq. congruence.
Qed.

Lemma existsb_eqb_In x acc :
  existsb (String.eqb x) acc = true <-> In x acc.
Proof.
  rewrite existsb_exists. split.
  - intros (y & Hy & E). apply String.eqb_eq in E. now subst.
  - intros H. exists x. split; [exact H | apply String.eqb_refl].
Qed.

(** Insertion into a [Set] one value at a time builds the first-seen
    list of the values the set did not hold yet. *)
Lemma fold_setAdd xs : forall acc,
  fold_left TravelForm.setAdd xs acc
  = acc ++ firstSeen (filter (fun y => negb (existsb (String.eqb y) acc)) xs).
Proof.
  induction xs as [|x xs IH]; intros acc; simpl.
  - now rewrite app_nil_r.
  - unfold TravelForm.setAdd at 2.
    destruct (existsb (String.eqb x) acc) eqn:E; simpl.
    + apply IH.
    + rewrite IH, <- app_assoc. simpl.
      apply (f_equal (app acc)), (f_equal (cons x)).
      rewrite <- firstSeen_filter. apply (f_equal firstSeen).
      clear IH E. induction xs as [|y xs IH]; simpl; [reflexivity |].
      rewrite existsb_app. simpl. rewrite orb_false_r, negb_orb.
      destruct (existsb (String.eqb y) acc); simpl; [exact IH |].
      destruct (String.eqb y x); simpl; [exact IH | now rewrite IH].
Qed.

Lemma arrayFromSet_firstSeen xs : TravelForm.arrayFromSet xs = firstSeen xs.
Proof.
  unfold TravelForm.arrayFromSet. rewrite fold_setAdd. simpl.
  f_equal. apply filter_all. reflexivity.
Qed.

End ListFacts.

(** ** The form and its matcher *)
Module TravelFormFacts.
Import JsString TravelForm Spec JsStringFacts ListFacts.

Lemma startsWithLetter_spec s :
  startsWithLetter s = true ->
  match s with
  | EmptyString => True
  | String b _ => isWhiteSpace b = false
  end.
Proof. destruct s; simpl; [trivial | apply negb_true_iff]. Qed.

(** No city and no country of the directory begins with white space. *)
Lemma directory_names :
  forall loc, In loc POPULAR_LOCATIONS ->
    startsWithLetter (city loc) = true /\ startsWithLetter (country loc) = true.
Proof.
  assert (H : forallb (fun loc => startsWithLetter (city loc)
                                  && startsWithLetter (country loc))
                      POPULAR_LOCATIONS = true) by (vm_compute; reflexivity).
  intros loc Hin. rewrite forallb_forall in H.
  now apply andb_true_iff, H.
Qed.

Lemma city_change_suggestions value st :
  citySuggestions (run (handleCityChange value) st)
  = if truthy (trim value)
    then filter (fun loc =>
           startsWith (toLowerCase (city loc)) (toLowerCase value)
           && (if truthy (fd_country (formData st))
               then String.eqb (toLowerCase (country loc))
                               (toLowerCase (fd_country (formData st)))
                    || includes (toLowerCase (country loc))
                                (toLowerCase (fd_country (formData st)))
               else true)) POPULAR_LOCATIONS
    else [].
Proof.
  unfold run, handleCityChange. rewrite length_positive.
  destruct (truthy (trim value)); reflexivity.
Qed.

Lemma country_change_suggestions value st :
  countrySuggestions (run (handleCountryChange value) st)
  = if truthy (trim value)
    then arrayFromSet
           (filter (fun c => startsWith (toLowerCase c) (toLowerCase value))
                   (map country POPULAR_LOCATIONS))
    else [].
Proof.
  unfold run, handleCountryChange. rewrite length_positive.
  destruct (truthy (trim value)); reflexivity.
Qed.

(** C6. For a non-empty partial city [P] typed while the country field
    holds [C], the suggestions [handleCityChange] stores are exactly the
    directory entries whose city starts with [P] case-insensitively and,
    when [C] is not empty, whose country equals or contains [C]
    case-insensitively, in directory order; with [C] empty they are
    exactly the case-insensitive prefix matches of [P]. *)
Theorem city_matcher_exact (st : State) (P : string) :
  P <> ""%string ->
  let C := fd_country (formData st) in
  let result := citySuggestions (run (handleCityChange P) st) in
  Selects (fun loc =>
             starts_with_ci (city loc) P
             /\ (C = ""%string
                 \/ eq_ci (country loc) C \/ contains_ci (country loc) C))
          POPULAR_LOCATIONS result
  /\ (C = ""%string ->
      Selects (fun loc => starts_with_ci (city loc) P)
              POPULAR_LOCATIONS result).
Proof.
  intros HP C result.
  assert (Hmain : Selects (fun loc =>
             starts_with_ci (city loc) P
             /\ (C = ""%string
                 \/ eq_ci (country loc) C \/ contains_ci (country loc) C))
          POPULAR_LOCATIONS result).
  { subst result. rewrite city_change_suggestions. fold C.
    destruct (truthy (trim P)) eqn:E.
    - apply filter_Selects. intros loc.
      rewrite andb_true_iff, startsWith_ci.
      destruct (truthy C) eqn:EC.
      + rewrite orb_true_iff, eqb_ci, includes_ci.
        apply truthy_true in EC. tauto.
      + apply truthy_false in EC. tauto.
    - apply none_Selects. intros loc Hin [Hs _]. revert Hs.
      apply blank_prefix_no_match; [exact HP | now apply truthy_false |].
      apply startsWithLetter_spec, (directory_names loc Hin). }
  split; [exact Hmain |].
  intros HC. revert Hmain. apply Selects_iff. intros loc. tauto.
Qed.

Lemma city_matcher_exact_witness :
  "pa"%string <> ""%string
  /\ Selects (fun loc =>
               starts_with_ci (city loc) "pa"
               /\ ("france" = ""
                   \/ eq_ci (country loc) "france"
                   \/ contains_ci (country loc) "france")%string)
            POPULAR_LOCATIONS [mkLocation "Paris" "France"].
Proof.
  assert (Hne : "pa"%string <> ""%string) by discriminate.
  split; [exact Hne |].
  exact (proj1 (city_matcher_exact countryTyped "pa" Hne)).
Defined.

(** C7. For a non-empty partial country [P], the suggestions
    [handleCountryChange] stores hold every directory country that
    starts with [P] case-insensitively exactly once, in the order in
    which the directory first shows them; [matchCountries "fr"] is
    [["France"]] although four French cities are listed. *)
Theorem country_matcher_unique (st : State) (P : string) :
  P <> ""%string ->
  let result := countrySuggestions (run (handleCountryChange P) st) in
  (exists matches,
      Selects (fun c => starts_with_ci c P)
              (map country POPULAR_LOCATIONS) matches
      /\ result = firstSeen matches)
  /\ NoDup result
  /\ (forall c, In c result <->
                In c (map country POPULAR_LOCATIONS) /\ starts_with_ci c P)
  /\ matchCountries "fr" = ["France"%string]
  /\ List.length (filter (fun loc => String.eqb (country loc) "France")
                         POPULAR_LOCATIONS) = 4.
Proof.
  intros HP result.
  assert (Hex : exists matches,
      Selects (fun c => starts_with_ci c P)
              (map country POPULAR_LOCATIONS) matches
      /\ result = firstSeen matches).
  { subst result. rewrite country_change_suggestions.
    destruct (truthy (trim P)) eqn:E.
    - eexists. split; [| apply arrayFromSet_firstSeen].
      apply filter_Selects. intros c. apply startsWith_ci.
    - exists []. split; [| reflexivity].
      apply none_Selects. intros c Hin.
      apply in_map_iff in Hin as (loc & <- & Hin).
      apply blank_prefix_no_match; [exact HP | now apply truthy_false |].
      apply startsWithLetter_spec, (directory_names loc Hin). }
  destruct Hex as (matches & Hsel & Hres).
  split; [now exists matches |].
  split; [rewrite Hres; apply firstSeen_NoDup |].
  split; [| split; vm_compute; reflexivity].
  intros c. rewrite Hres, firstSeen_In. apply (Selects_In _ _ _ Hsel c).
Qed.

Lemma country_matcher_unique_witness :
  "fr"%string <> ""%string
  /\ NoDup (countrySuggestions (run (handleCountryChange "fr") initial)).
Proof.
  assert (Hne : "fr"%string <> ""%string) by discriminate.
  split; [exact Hne |].
  exact (proj1 (proj2 (country_matcher_unique initial "fr" Hne))).
Defined.

(** What a submit event does, whatever the fields hold. *)
Lemma run_handleSubmit st :
  run handleSubmit st
  = mkState (formData st) None (citySuggestions st) (countrySuggestions st)
            false false.
Proof.
  unfold run, handleSubmit.
  destruct (truthy (trim (fd_city (formData st)))
            && truthy (trim (fd_country (formData st)))); reflexivity.
Qed.

Lemma submitted_handleSubmit st :
  submitted (handleSubmit st)
  = if truthy (trim (fd_city (formData st)))
       && truthy (trim (fd_country (formData st)))
    then [formData st] else [].
Proof.
  unfold handleSubmit.
  destruct (truthy (trim (fd_city (formData st)))
            && truthy (trim (fd_country (formData st)))); reflexivity.
Qed.

(** C10. A submit event closes both dropdowns and clears the active
    field whether or not the fields pass validation; the setters come
    first in the handler, the validity test and the only possible
    [onSubmit] call after them; city, country and duration (and the
    stored suggestions) are left as they were. *)
Theorem submit_always_closes_dropdowns (st : State) :
  let st' := run handleSubmit st in
  showCityDropdown st' = false
  /\ showCountryDropdown st' = false
  /\ activeField st' = None
  /\ formData st' = formData st
  /\ citySuggestions st' = citySuggestions st
  /\ countrySuggestions st' = countrySuggestions st
  /\ exists tail,
       handleSubmit st
       = [ preventDefault; setShowCityDropdown false;
           setShowCountryDropdown false; setActiveField None ] ++ tail
       /\ (tail = [] /\ submitted (handleSubmit st) = []
           \/ tail = [onSubmit (formData st)]
              /\ submitted (handleSubmit st) = [formData st]).
Proof.
  intros st'. subst st'. rewrite run_handleSubmit.
  do 6 (split; [reflexivity |]).
  rewrite submitted_handleSubmit. unfold handleSubmit.
  destruct (truthy (trim (fd_city (formData st)))
            && truthy (trim (fd_country (formData st)))).
  - eexists. split; [reflexivity |]. right. now split.
  - eexists. split; [reflexivity |]. left. now split.
Qed.

End TravelFormFacts.

(** ** The service and the orchestration *)
Module OrchestrationFacts.
Import JsString Js Gemini App Spec Notations.

Lemma lookup_setProp_same o k v : lookup k (setProp o k v) = v.
Proof.
  induction o as [|[k' v'] o IH]; simpl.
  - now rewrite String.eqb_refl.
  - destruct (String.eqb k k') eqn:E; simpl.
    + now rewrite String.eqb_refl.
    + now rewrite E.
Qed.

Lemma lookup_setProp_other o k k' v :
  k' <> k -> lookup k' (setProp o k v) = lookup k' o.
Proof.
  intros Hne. apply String.eqb_neq in Hne.
  induction o as [|[k0 v0] o IH]; simpl.
  - now rewrite Hne.
  - destruct (String.eqb k k0) eqn:E; simpl.
    + apply String.eqb_eq in E. subst k0. now rewrite Hne.
    + now rewrite IH.
Qed.

Lemma lookup_combine_imageUrl g img gal :
  lookup "imageUrl" (combine g img gal) = ofOptString img.
Proof.
  unfold combine.
  rewrite lookup_setProp_other by discriminate.
  apply lookup_setProp_same.
Qed.

Lemma lookup_combine_gallery g img gal :
  lookup "gallery" (combine g img gal) = JArr (map JStr gal).
Proof. apply lookup_setProp_same. Qed.

Lemma lookup_combine_field g img gal f :
  In f guideFields -> lookup f (combine g img gal) = lookup f g.
Proof.
  intros Hf. unfold combine.
  rewrite !lookup_setProp_other; [reflexivity | |];
    intros ->; simpl in Hf; intuition discriminate.
Qed.

(** The hero image never rejects. *)
Lemma generateCityImage_returns h c k :
  generateCityImage h c k = Returned (heroImage h c k).
Proof.
  unfold generateCityImage, heroImage.
  destruct (generateContent h (imageRequest c k)); reflexivity.
Qed.

Lemma gallery_promises h prompts :
  promiseAll
    (map (fun prompt =>
            tryCatch
              (response <- generateContent h (galleryRequest prompt) ;;
               Returned (imageOf response))
              (fun _ => Returned None)) prompts)
  = Returned (map (galleryImage h) prompts).
Proof.
  induction prompts as [|p ps IH]; simpl; [reflexivity |].
  rewrite IH. unfold galleryImage.
  destruct (generateContent h (galleryRequest p)); reflexivity.
Qed.

(** Nor does the gallery. *)
Lemma generateCityGallery_returns h c k :
  generateCityGallery h c k = Returned (galleryImages h c k).
Proof.
  unfold generateCityGallery, galleryImages.
  now rewrite gallery_promises.
Qed.

Lemma handleFormSubmit_cases h fd st :
  handleFormSubmit h fd st
  = match generateCityGuide h (TravelForm.fd_city fd) (TravelForm.fd_country fd)
            (TravelForm.fd_duration fd) with
    | Returned guide =>
        succeeded st
          (combine guide
             (heroImage h (TravelForm.fd_city fd) (TravelForm.fd_country fd))
             (galleryImages h (TravelForm.fd_city fd) (TravelForm.fd_country fd)))
    | Thrown _ => failed st
    end.
Proof.
  unfold handleFormSubmit.
  rewrite generateCityImage_returns, generateCityGallery_returns.
  destruct (generateCityGuide _ _ _ _); reflexivity.
Qed.

Lemma generateCityGuide_fails h c k d :
  contentFails h c k d -> exists e, generateCityGuide h c k d = Thrown e.
Proof.
  unfold contentFails, generateCityGuide.
  intros [[e He] | (r & Hr & [Ht | [Ht | (t & Ht & Hp)]])].
  - rewrite He. now exists e.
  - rewrite Hr. simpl. rewrite Ht. now eexists.
  - rewrite Hr. simpl. rewrite Ht. now eexists.
  - rewrite Hr. simpl. rewrite Ht.
    destruct t; [now eexists |].
    destruct Hp as [[e He] | Hn].
    + rewrite He. now exists e.
    + rewrite Hn. now eexists.
Qed.

Lemma generateCityGuide_parses h c k d parsed :
  contentParses h c k d parsed ->
  generateCityGuide h c k d = safeData parsed c k.
Proof.
  intros (r & t & Hr & Ht & Hne & Hp). unfold generateCityGuide.
  rewrite Hr. simpl. rewrite Ht. destruct t; [congruence |].
  rewrite Hp. simpl. destruct (safeData parsed c k); reflexivity.
Qed.

(** The sanitised object, once the property reads went through. *)
Lemma safeData_returned parsed c k g :
  safeData parsed c k = Returned g ->
  g = [ ("city", or (field parsed "city") (JStr c));
        ("country", or (field parsed "country") (JStr k));
        ("coordinates", or (field parsed "coordinates") defaultCoordinates);
        ("introduction",
          or (field parsed "introduction")
             (JStr "Information currently unavailable."));
        ("weather", or (field parsed "weather") defaultWeather);
        ("attractions", arrayOrEmpty (field parsed "attractions"));
        ("mapContext",
          or (field parsed "mapContext") (JStr "Map details unavailable."));
        ("itinerary", arrayOrEmpty (field parsed "itinerary"));
        ("localTips", arrayOrEmpty (field parsed "localTips")) ].
Proof.
  destruct parsed; simpl; intros H; try discriminate;
    injection H as <-; reflexivity.
Qed.

Lemma safeData_returns parsed c k :
  parsed <> undefined -> parsed <> null ->
  exists g, safeData parsed c k = Returned g.
Proof.
  destruct parsed; intros H1 H2; try congruence; simpl; now eexists.
Qed.

Lemma or_defined a b : b <> undefined -> or a b <> undefined.
Proof.
  unfold or. destruct (ToBoolean a) eqn:E; [| trivial].
  intros _ ->. discriminate.
Qed.

Lemma arrayOrEmpty_array v : exists items, arrayOrEmpty v = JArr items.
Proof. unfold arrayOrEmpty. destruct v; simpl; eauto. Qed.

End OrchestrationFacts.

(** ** [parseInt] on decimal numerals *)
Module ParseIntFacts.
Import JsString Gemini Spec.
Import Decimal DecimalString.

Lemma digits_step c s a k :
  digitValue c = Some k -> (k <? 10)%N = true ->
  digits 10 (String c s) (Some a) = digits 10 s (Some (a * 10 + k)%N).
Proof. simpl. now intros -> ->. Qed.

(** Reading a numeral after some digits continues the accumulation of
    [Pos.of_uint_acc]. *)
Lemma digits_acc d : forall p,
  digits 10 (NilEmpty.string_of_uint d) (Some (Npos p))
  = Some (Npos (Pos.of_uint_acc d p)).
Proof.
  induction d; intros p; [reflexivity | ..];
    cbn [NilEmpty.string_of_uint Pos.of_uint_acc];
    erewrite digits_step by reflexivity;
    rewrite <- IHd; apply f_equal, f_equal;
    match goal with
    | |- context [(N_of_ascii ?c - 48)%N] =>
        let v := eval vm_compute in (N_of_ascii c - 48)%N in
        change (N_of_ascii c - 48)%N with v
    end; lia.
Qed.

Lemma digits_start d :
  d <> Nil ->
  digits 10 (NilEmpty.string_of_uint d) None = Some (Pos.of_uint d)
  /\ digits 10 (NilEmpty.string_of_uint d) (Some 0%N) = Some (Pos.of_uint d).
Proof.
  induction d; intros Hne; [congruence | | ..].
  - destruct (uint_eq_dec d Nil) as [-> | Hd]; [split; reflexivity |].
    destruct (IHd Hd) as [_ H0]. split; exact H0.
  - split; apply digits_acc.
  - split; apply digits_acc.
  - split; apply digits_acc.
  - split; apply digits_acc.
  - split; apply digits_acc.
  - split; apply digits_acc.
  - split; apply digits_acc.
  - split; apply digits_acc.
  - split; apply digits_acc.
Qed.

(** A numeral has no white space, no sign and no [0x] in front. *)
Lemma parseInt_numeral d :
  d <> Nil ->
  parseInt (NilEmpty.string_of_uint d)
  = match digits 10 (NilEmpty.string_of_uint d) None with
    | Some m => toNumber false m
    | None => NaN
    end.
Proof.
  intros Hne. destruct d; try congruence; try reflexivity.
  destruct d; reflexivity.
Qed.

Lemma parseInt_decimal n : parseInt (decimalNumeral n) = toNumber false n.
Proof.
  unfold decimalNumeral.
  assert (Hne : N.to_uint n <> Nil).
  { destruct n; simpl; [discriminate | apply DecimalPos.Unsigned.to_uint_nonnil]. }
  rewrite (parseInt_numeral _ Hne).
  destruct (digits_start _ Hne) as [-> _].
  f_equal. apply DecimalN.Unsigned.of_to.
Qed.

Lemma size_small n : (n < 2 ^ 53)%N -> (N.size n <=? 53)%N = true.
Proof.
  intros H. apply N.leb_le.
  destruct (N.eq_dec n 0) as [-> | Hn]; [vm_compute; discriminate |].
  rewrite N.size_log2 by exact Hn.
  apply N.le_succ_l, N.log2_lt_pow2; lia.
Qed.

(** Integers below 2^53 are Numbers as they are. *)
Lemma roundToDouble_exact n : (n < 2 ^ 53)%N -> roundToDouble n = Some n.
Proof. intros H. unfold roundToDouble. now rewrite (size_small n H). Qed.

(** Rounding never turns an integer that is not zero into zero. *)
Lemma roundToDouble_zero n : roundToDouble n = Some 0%N -> n = 0%N.
Proof.
  unfold roundToDouble.
  destruct (N.size n <=? 53)%N eqn:Es; [congruence |].
  apply N.leb_gt in Es. cbv zeta.
  destruct (N.ltb _ _); [| discriminate].
  intros [= H]. apply N.shiftl_eq_0_iff in H.
  assert (Hn : n <> 0%N)
    by (intros ->; change (N.size 0) with 0%N in Es; lia).
  destruct (orb _ _) in H; [lia |].
  apply N.shiftr_eq_0_iff in H as [H | [_ H]]; [contradiction |].
  rewrite N.size_log2 in H by exact Hn. lia.
Qed.

(** On integers that fit 63 bits the rounding is the one of the
    primitive binary64 conversion, checked here where the rounding
    matters: around 2^53, on ties, and at the top of the range. *)
Lemma roundToDouble_is_binary64 :
  forallb (fun m =>
             SFeqb (Prim2SF (PrimFloat.of_uint63 (Uint63.of_Z (Z.of_N m))))
                   (match roundToDouble m with
                    | Some v => binary_normalize prec emax (Z.of_N v) 0 false
                    | None => S754_infinity false
                    end))
          [ 0; 1; 14; 2 ^ 53 - 1; 2 ^ 53; 2 ^ 53 + 1; 2 ^ 53 + 2; 2 ^ 53 + 3;
            2 ^ 62 + 2 ^ 9; 2 ^ 62 + 2 ^ 9 + 1; 2 ^ 62 + 3 * 2 ^ 9;
            123456789012345678; 2 ^ 63 - 1 ]%N
  = true.
Proof. vm_compute. reflexivity. Qed.

Lemma ToBooleanInt_toNumber sg n :
  ToBooleanInt (toNumber sg n) = negb (n =? 0)%N.
Proof.
  unfold toNumber. destruct (roundToDouble n) as [m|] eqn:E; simpl.
  - destruct (N.eqb_spec m 0) as [-> | Hm].
    + apply roundToDouble_zero in E. now subst n.
    + destruct (N.eqb_spec n 0) as [-> | Hn]; [| reflexivity].
      vm_compute in E. congruence.
  - destruct (N.eqb_spec n 0) as [-> | Hn]; [| reflexivity].
    vm_compute in E. discriminate.
Qed.

End ParseIntFacts.

(** ** Submission, end to end *)
Module SubmissionFacts.
Import JsString Js Gemini App Spec Notations.
Import JsStringFacts OrchestrationFacts TravelFormFacts ParseIntFacts.

(** C1. A failing structured-content request (rejected, no text,
    unparseable text, or [null]) fails the whole submission: the error
    message is set and no guide is stored.  When the guide is produced the
    submission succeeds whatever the image requests do: [imageUrl] is the
    hero image, [undefined] when that request fails, and [gallery] holds
    the gallery images that succeeded, in prompt order.  With a failed
    hero image, two gallery images delivered and one failed, the guide is
    stored with [imageUrl] undefined and a gallery of the two images. *)
Theorem orchestration_failure_policy
        (h : Host) (fd : TravelForm.FormState) (st : App.State) :
  let c := TravelForm.fd_city fd in
  let k := TravelForm.fd_country fd in
  let d := TravelForm.fd_duration fd in
  (contentFails h c k d -> handleFormSubmit h fd st = failed st)
  /\ (forall guide,
        generateCityGuide h c k d = Returned guide ->
        let merged := combine guide (heroImage h c k) (galleryImages h c k) in
        handleFormSubmit h fd st = succeeded st merged
        /\ lookup "imageUrl" merged = ofOptString (heroImage h c k)
        /\ ((exists e, generateContent h (imageRequest c k) = Thrown e) ->
            lookup "imageUrl" merged = undefined)
        /\ lookup "gallery" merged = JArr (map JStr (galleryImages h c k)))
  /\ (exists guide,
        handleFormSubmit guideEmpty romeThreeDays App.initial
        = succeeded App.initial guide
        /\ lookup "imageUrl" guide = undefined
        /\ lookup "gallery" guide
           = JArr [ JStr "data:image/png;base64,AAAA";
                    JStr "data:image/png;base64,BBBB" ]).
Proof.
  intros c k d. split; [| split].
  - intros Hf. apply generateCityGuide_fails in Hf as [e He].
    rewrite handleFormSubmit_cases. fold c k d. now rewrite He.
  - intros guide Hg merged. rewrite handleFormSubmit_cases. fold c k d.
    rewrite Hg. split; [reflexivity |].
    split; [apply lookup_combine_imageUrl |].
    split; [| apply lookup_combine_gallery].
    intros [e He]. subst merged. rewrite lookup_combine_imageUrl.
    unfold heroImage. now rewrite He.
  - eexists. split; [vm_compute; reflexivity |].
    split; vm_compute; reflexivity.
Qed.

(** C2. When the reply of the structured-content request parses and the
    guide is produced, the stored guide has arrays for [attractions],
    [itinerary], [localTips] and [gallery] (empty for a list field the
    reply lacks), the default weather when the reply has no [weather], the
    coordinates [{lat: 0, lng: 0}] when it has no [coordinates], and no
    field of the guide is [undefined]. *)
Theorem merged_guide_is_fully_shaped
        (h : Host) (fd : TravelForm.FormState) (st : App.State)
        (parsedData : Value) (guide : Object) :
  let c := TravelForm.fd_city fd in
  let k := TravelForm.fd_country fd in
  let d := TravelForm.fd_duration fd in
  contentParses h c k d parsedData ->
  generateCityGuide h c k d = Returned guide ->
  exists merged,
    data (handleFormSubmit h fd st) = Some merged
    /\ (forall f, In f ("gallery"%string :: listFields) ->
                  exists items, lookup f merged = JArr items)
    /\ (forall f, In f listFields -> field parsedData f = undefined ->
                  lookup f merged = JArr [])
    /\ (field parsedData "weather" = undefined ->
        lookup "weather" merged = defaultWeather)
    /\ (field parsedData "coordinates" = undefined ->
        lookup "coordinates" merged = defaultCoordinates)
    /\ (forall f, In f ("gallery"%string :: guideFields) ->
                  lookup f merged <> undefined).
Proof.
  intros c k d Hp Hg.
  exists (combine guide (heroImage h c k) (galleryImages h c k)).
  split.
  { rewrite handleFormSubmit_cases. fold c k d. now rewrite Hg. }
  rewrite (generateCityGuide_parses _ _ _ _ _ Hp) in Hg.
  apply safeData_returned in Hg. subst guide.
  split; [| split; [| split; [| split]]].
  - intros f [<- | Hf]; [rewrite lookup_combine_gallery; eauto |].
    rewrite lookup_combine_field
      by (simpl in *; intuition (subst; auto 10)).
    simpl in Hf. destruct Hf as [<- | [<- | [<- | []]]]; simpl;
      apply arrayOrEmpty_array.
  - intros f Hf Hu.
    rewrite lookup_combine_field
      by (simpl in *; intuition (subst; auto 10)).
    simpl in Hf. destruct Hf as [<- | [<- | [<- | []]]]; simpl;
      now rewrite Hu.
  - intros Hu. rewrite lookup_combine_field by (simpl; auto 10).
    simpl. now rewrite Hu.
  - intros Hu. rewrite lookup_combine_field by (simpl; auto 10).
    simpl. now rewrite Hu.
  - intros f [<- | Hf]; [rewrite lookup_combine_gallery; discriminate |].
    rewrite lookup_combine_field by exact Hf.
    simpl in Hf.
    repeat (destruct Hf as [<- | Hf];
            [simpl;
             first [ apply or_defined; discriminate
                   | destruct (arrayOrEmpty_array (field parsedData "attractions")) as [l ->]; discriminate
                   | destruct (arrayOrEmpty_array (field parsedData "itinerary")) as [l ->]; discriminate
                   | destruct (arrayOrEmpty_array (field parsedData "localTips")) as [l ->]; discriminate ] |]).
    destruct Hf.
Qed.

Lemma orchestration_failure_policy_witness :
  contentFails guideDown "Rome" "Italy" "3"
  /\ handleFormSubmit guideDown romeThreeDays App.initial = failed App.initial.
Proof.
  assert (Hf : contentFails guideDown "Rome" "Italy" "3").
  { left. exists (ApiError 503). reflexivity. }
  split; [exact Hf |].
  exact (proj1 (orchestration_failure_policy
                  guideDown romeThreeDays App.initial) Hf).
Defined.

Lemma merged_guide_is_fully_shaped_witness :
  contentParses guideEmpty "Rome" "Italy" "3" (JObj [])
  /\ exists merged,
       data (handleFormSubmit guideEmpty romeThreeDays App.initial) = Some merged
       /\ lookup "weather" merged = defaultWeather.
Proof.
  assert (Hp : contentParses guideEmpty "Rome" "Italy" "3" (JObj [])).
  { exists (mkResponse (Some "{}"%string) None), "{}"%string.
    repeat split; [discriminate]. }
  split; [exact Hp |].
  destruct (merged_guide_is_fully_shaped
              guideEmpty romeThreeDays App.initial
              (JObj []) _ Hp eq_refl)
    as (merged & Hd & _ & _ & Hw & _).
  exists merged. split; [exact Hd | exact (Hw eq_refl)].
Defined.

(** C3, as the specification words it: sanitising a reply in which every
    field is present with its type gives every field back unchanged.
    The reply [emptyIntroductionGuide] refutes it: its introduction is the
    string [""], which the [||] of the service replaces. *)
Lemma merge_not_identity_on_empty_text :
  ~ (forall parsedData city country,
       wellFormedGuide parsedData = true ->
       exists g, safeData parsedData city country = Returned g
                 /\ forall f, In f guideFields ->
                              lookup f g = field parsedData f).
Proof.
  intros H.
  destruct (H emptyIntroductionGuide "Rome"%string "Italy"%string eq_refl)
    as (g & Hg & Hf).
  injection Hg as <-.
  specialize (Hf "introduction"%string). simpl in Hf.
  assert (Hin : "introduction"%string = "introduction"%string) by reflexivity.
  specialize (Hf (or_intror (or_intror (or_intror (or_introl Hin))))).
  discriminate Hf.
Qed.

Lemma kept_field parsed c k g f :
  safeData parsed c k = Returned g ->
  In f guideFields -> kept parsed f = true -> lookup f g = field parsed f.
Proof.
  intros Hg Hf Hk. apply safeData_returned in Hg. subst g.
  simpl in Hf.
  repeat (destruct Hf as [<- | Hf];
          [unfold kept in Hk; simpl in Hk; simpl;
           unfold or, arrayOrEmpty; now rewrite Hk |]).
  destruct Hf.
Qed.

Lemma wellFormed_kept parsed f :
  wellFormedGuide parsed = true -> In f guideFields ->
  kept parsed f = true
  \/ (In f textFields /\ field parsed f = JStr ""%string).
Proof.
  destruct parsed; simpl; try discriminate. intros Hw Hf.
  repeat (apply andb_true_iff in Hw as [Hw ?]).
  unfold kept. simpl field.
  repeat (destruct Hf as [<- | Hf];
          [simpl existsb; cbv iota;
           match goal with
           | |- context [lookup ?f props] =>
               destruct (lookup f props) as [| | | |[|]|[|]|] eqn:E;
               simpl in *; try discriminate; auto 10
           end |]).
  destruct Hf.
Qed.

(** C3, amended.  For a reply in which every field is present with its
    type, the sanitised object has the nine fields in order, gives back
    unchanged every field the step keeps (a truthy value, an array for
    the three lists), and the only fields it can replace are text fields
    holding the empty string; so when the four text fields are non-empty
    the step is the identity on the nine fields. *)
Theorem merge_identity_when_text_present
        (parsedData : Value) (city country : string) :
  wellFormedGuide parsedData = true ->
  exists g,
    safeData parsedData city country = Returned g
    /\ map fst g = guideFields
    /\ (forall f, In f guideFields -> kept parsedData f = true ->
                  lookup f g = field parsedData f)
    /\ (forall f, In f guideFields -> lookup f g <> field parsedData f ->
                  In f textFields /\ field parsedData f = JStr ""%string)
    /\ (textFieldsNonEmpty parsedData = true ->
        forall f, In f guideFields -> lookup f g = field parsedData f).
Proof.
  intros Hw.
  destruct (safeData_returns parsedData city country) as [g Hg];
    [destruct parsedData; discriminate .. |].
  exists g. split; [exact Hg |].
  split; [apply safeData_returned in Hg; now subst g |].
  split; [intros f; now apply kept_field with city country |].
  split.
  - intros f Hf Hne.
    destruct (wellFormed_kept parsedData f Hw Hf) as [Hk | Ht]; [| exact Ht].
    exfalso. apply Hne. now apply kept_field with city country.
  - intros Ht f Hf.
    destruct (wellFormed_kept parsedData f Hw Hf) as [Hk | [Hin He]];
      [now apply kept_field with city country |].
    exfalso. destruct parsedData; simpl in *; try discriminate.
    repeat (destruct Hin as [<- | Hin];
            [rewrite He in Ht; simpl in Ht;
             rewrite ?andb_false_r in Ht; discriminate |]).
    destruct Hin.
Qed.

Lemma merge_identity_when_text_present_witness :
  wellFormedGuide emptyIntroductionGuide = true
  /\ exists g,
       safeData emptyIntroductionGuide "Rome" "Italy" = Returned g
       /\ map fst g = guideFields.
Proof.
  split; [reflexivity |].
  destruct (merge_identity_when_text_present
              emptyIntroductionGuide "Rome" "Italy" eq_refl)
    as (g & Hg & Hk & _).
  exists g. split; [exact Hg | exact Hk].
Defined.

(** C4, as the specification words it: every duration that reads as an
    integer is used as it is.  ["0"] reads as the integer 0, and the day
    count is 1. *)
Lemma zero_duration_becomes_one :
  parseInt "0" = Int false 0
  /\ numDays "0" = Int false 1
  /\ numDays "0" <> parseInt "0".
Proof. repeat split. discriminate. Qed.

(** C4, amended.  The day count is the Number [parseInt] reads from the
    duration, and 1 when [parseInt] gives [NaN] or zero; it is what the
    prompt of the structured-content request carries.  The empty string
    and ["abc"] give 1, and the whole call then behaves as with ["1"].
    The decimal numeral of [n] reads as the binary64 value of [n], which
    is [n] itself below 2^53 (2^53 + 1 already reads as 2^53), and the day
    count is that value unless [n] is zero. *)
Theorem duration_defaults_to_one
        (h : Host) (city country duration : string) :
  numDays duration
  = match parseInt duration with
    | NaN => Int false 1
    | Int _ 0 => Int false 1
    | Int s m => Int s m
    | Infinity s => Infinity s
    end
  /\ contents (guideRequest h city country duration)
     = GuidePrompt (currentDate h) city country (numDays duration)
  /\ parseInt "" = NaN /\ parseInt "abc" = NaN
  /\ numDays "" = Int false 1 /\ numDays "abc" = Int false 1
  /\ generateCityGuide h city country "" = generateCityGuide h city country "1"
  /\ generateCityGuide h city country "abc" = generateCityGuide h city country "1"
  /\ (forall n, parseInt (decimalNumeral n) = toNumber false n)
  /\ (forall n, numDays (decimalNumeral n)
                = if (n =? 0)%N then Int false 1 else toNumber false n)
  /\ (forall n, (n < 2 ^ 53)%N -> toNumber false n = Int false n)
  /\ parseInt "9007199254740993" = Int false 9007199254740992.
Proof.
  split.
  { unfold numDays. destruct (parseInt duration) as [|s [|m]|s]; reflexivity. }
  do 7 (split; [reflexivity |]).
  split; [exact parseInt_decimal |].
  split.
  { intros n. unfold numDays. rewrite parseInt_decimal, ToBooleanInt_toNumber.
    destruct (n =? 0)%N; reflexivity. }
  split; [| vm_compute; reflexivity].
  intros n Hn. unfold toNumber. now rewrite roundToDouble_exact.
Qed.





(** A duration of 99 days is stopped by the constraints: no submit event
    reaches the handler. *)
Lemma out_of_range_duration_is_blocked ua :
  FormConstraints.valueAsNumber ua "99" = Some (QArith_base.inject_Z 99) ->
  FormConstraints.requestSubmit ua romeNinetyNineDays = [].
Proof.
  intros H. unfold FormConstraints.requestSubmit, FormConstraints.checkValidity,
    FormConstraints.durationValid.
  cbn [romeNinetyNineDays TravelForm.formData TravelForm.fd_duration
       TravelForm.fd_city TravelForm.fd_country].
  rewrite H. reflexivity.
Qed.

(** C8. When the city or the country is blank, a submit event makes no
    [onSubmit] call, so the orchestrator does not run, and the
    application is left as it was: no request, no loading flag, no error
    message. *)
Theorem blank_submission_is_dropped
        (h : Host) (st : TravelForm.State) (app : App.State) :
  blank (TravelForm.fd_city (TravelForm.formData st))
  \/ blank (TravelForm.fd_country (TravelForm.formData st)) ->
  TravelForm.submitted (TravelForm.handleSubmit st) = []
  /\ formSubmitEvent h st app = app
  /\ error (formSubmitEvent h st app) = error app.
Proof.
  intros Hb. unfold formSubmitEvent. rewrite submitted_handleSubmit.
  assert (E : truthy (trim (TravelForm.fd_city (TravelForm.formData st)))
              && truthy (trim (TravelForm.fd_country (TravelForm.formData st)))
              = false).
  { apply andb_false_iff. unfold blank in Hb.
    destruct Hb as [Hb | Hb]; [left | right]; now apply truthy_false. }
  rewrite E. repeat split.
Qed.

Lemma blank_submission_is_dropped_witness :
  (blank (TravelForm.fd_city (TravelForm.formData blankCountry))
   \/ blank (TravelForm.fd_country (TravelForm.formData blankCountry)))
  /\ formSubmitEvent guideDown blankCountry App.initial = App.initial.
Proof.
  assert (Hb : blank (TravelForm.fd_city (TravelForm.formData blankCountry))
               \/ blank (TravelForm.fd_country (TravelForm.formData blankCountry))).
  { right. reflexivity. }
  split; [exact Hb |].
  exact (proj1 (proj2 (blank_submission_is_dropped
                         guideDown blankCountry App.initial Hb))).
Defined.

End SubmissionFacts.

(** ** The result view *)
Module ResultViewFacts.
Import Js ResultView Notations.



(** The deferred callback completes in every state. *)
Lemma runTimer_returns t st : exists st', runTimer t st = Returned st'.
Proof.
  destruct t as [lat lng]. unfold runTimer.
  destruct (mapRef st) eqn:E; simpl; eauto.
Qed.

Lemma step_returns data st ev : exists st', step data st ev = Returned st'.
Proof.
  destruct ev; simpl; eauto.
  destruct (timers st); [eauto | apply runTimer_returns].
Qed.

(** No sequence of events ends in an exception. *)
Lemma steps_return data evs : forall st,
  exists st', steps data st evs = Returned st'.
Proof.
  induction evs as [|ev evs IH]; intros st; simpl; [eauto |].
  destruct (step_returns data st ev) as [st1 ->]. simpl. apply IH.
Qed.





End ResultViewFacts.

(** ** More about the form *)
Module TravelFormExtra.
Import JsString TravelForm TravelFormEvents Spec.
Import JsStringFacts ListFacts TravelFormFacts.

Lemma lowerChar_idem c : lowerChar (lowerChar c) = lowerChar c.
Proof. destruct c as [[] [] [] [] [] [] [] []]; reflexivity. Qed.

Lemma isWhiteSpace_lowerChar c : isWhiteSpace (lowerChar c) = isWhiteSpace c.
Proof. destruct c as [[] [] [] [] [] [] [] []]; reflexivity. Qed.

Lemma toLowerCase_idem s : toLowerCase (toLowerCase s) = toLowerCase s.
Proof.
  induction s as [|c s IH]; simpl; [reflexivity |].
  now rewrite lowerChar_idem, IH.
Qed.

Lemma truthy_toLowerCase s : truthy (toLowerCase s) = truthy s.
Proof. destruct s; reflexivity. Qed.

Lemma trimStart_toLowerCase s :
  trimStart (toLowerCase s) = toLowerCase (trimStart s).
Proof.
  induction s as [|c s IH]; simpl; [reflexivity |].
  rewrite isWhiteSpace_lowerChar. destruct (isWhiteSpace c); [exact IH | reflexivity].
Qed.

Lemma trimEnd_toLowerCase s :
  trimEnd (toLowerCase s) = toLowerCase (trimEnd s).
Proof.
  induction s as [|c s IH]; simpl; [reflexivity |].
  rewrite IH, isWhiteSpace_lowerChar.
  destruct (trimEnd s); simpl; [destruct (isWhiteSpace c) |]; reflexivity.
Qed.

(** Trimming and lower-casing commute. *)
Lemma trim_toLowerCase s : trim (toLowerCase s) = toLowerCase (trim s).
Proof. unfold trim. now rewrite trimStart_toLowerCase, trimEnd_toLowerCase. Qed.

Lemma eq_ci_truthy a b : eq_ci a b -> truthy a = truthy b.
Proof.
  unfold eq_ci. intros H.
  now rewrite <- (truthy_toLowerCase a), <- (truthy_toLowerCase b), H.
Qed.

Lemma eq_ci_blank a b : eq_ci a b -> truthy (trim a) = truthy (trim b).
Proof.
  unfold eq_ci. intros H.
  rewrite <- (truthy_toLowerCase (trim a)), <- (truthy_toLowerCase (trim b)).
  now rewrite <- !trim_toLowerCase, H.
Qed.

(** X1. The letter case of what is typed does not matter: two inputs
    that differ only in case, typed while the country fields differ only
    in case, get the same city suggestions, and two such country inputs
    get the same country suggestions. *)
Theorem suggestions_ignore_case (st st' : State) (v v' : string) :
  eq_ci v v' ->
  eq_ci (fd_country (formData st)) (fd_country (formData st')) ->
  citySuggestions (run (handleCityChange v) st)
  = citySuggestions (run (handleCityChange v') st')
  /\ countrySuggestions (run (handleCountryChange v) st)
     = countrySuggestions (run (handleCountryChange v') st').
Proof.
  intros Hv Hc.
  rewrite !city_change_suggestions, !country_change_suggestions.
  rewrite (eq_ci_blank _ _ Hv), (eq_ci_truthy _ _ Hc).
  unfold eq_ci in Hv, Hc. now rewrite Hv, Hc.
Qed.

Lemma suggestions_ignore_case_witness :
  (eq_ci "PA" "pa" /\ eq_ci "France" "france")
  /\ citySuggestions
       (run (handleCityChange "PA")
            (mkState (mkFormState "" "France" "") None [] [] false false))
     = [mkLocation "Paris" "France"].
Proof.
  assert (H1 : eq_ci "PA" "pa") by reflexivity.
  assert (H2 : eq_ci "France" "france") by reflexivity.
  split; [now split |].
  exact (proj1 (suggestions_ignore_case
                  (mkState (mkFormState "" "France" "") None [] [] false false)
                  countryTyped "PA" "pa" H1 H2)).
Defined.

Lemma filter_Selects_In {A} (f : A -> bool) (Q : A -> Prop) l :
  (forall x, In x l -> (f x = true <-> Q x)) -> Selects Q l (filter f l).
Proof.
  induction l as [|x l IH]; intros Hf; simpl; [constructor |].
  assert (Hl : forall y, In y l -> (f y = true <-> Q y))
    by (intros y Hy; apply Hf; now right).
  destruct (f x) eqn:E.
  - apply Selects_keep; [apply Hf; [now left | exact E] | now apply IH].
  - apply Selects_skip; [| now apply IH].
    intros HQ. apply Hf in HQ; [congruence | now left].
Qed.

Lemma filter_filter_implied {A} (f g : A -> bool) l :
  (forall x, g x = true -> f x = true) ->
  filter g (filter f l) = filter g l.
Proof.
  intros H. induction l as [|x l IH]; simpl; [reflexivity |].
  destruct (f x) eqn:Ef; simpl.
  - now rewrite IH.
  - destruct (g x) eqn:Eg; [apply H in Eg; congruence | exact IH].
Qed.

Lemma filter_none {A} (f : A -> bool) l :
  (forall x, In x l -> f x = false) -> filter f l = [].
Proof.
  induction l as [|x l IH]; intros H; simpl; [reflexivity |].
  rewrite (H x (or_introl eq_refl)). apply IH.
  intros y Hy. apply H. now right.
Qed.

Lemma starts_with_ci_app s p q :
  starts_with_ci s (p ++ q) -> starts_with_ci s p.
Proof.
  intros (pre & rest & -> & E). unfold eq_ci in E.
  rewrite toLowerCase_app in E.
  revert pre E. induction p as [|a p IH]; intros pre E.
  - exists ""%string, (pre ++ rest)%string. now split.
  - destruct pre as [|b pre]; simpl in E; [discriminate |].
    injection E as Hb E.
    destruct (IH pre E) as (pre' & rest' & H' & E').
    exists (String b pre'), rest'. simpl. split; [now rewrite H' |].
    unfold eq_ci in *. simpl. now rewrite Hb, E'.
Qed.

(** X2. Typing on narrows the list: for a non-empty input [P], the city
    suggestions for [P ++ Q] are exactly those suggestions for [P] whose
    city starts with [P ++ Q], in the same order. *)
Theorem typing_on_narrows (st : State) (P Q : string) :
  P <> ""%string ->
  Selects (fun loc => starts_with_ci (city loc) (P ++ Q))
          (citySuggestions (run (handleCityChange P) st))
          (citySuggestions (run (handleCityChange (P ++ Q)) st)).
Proof.
  intros HP. rewrite !city_change_suggestions.
  set (cond := fun loc : Location =>
         if truthy (fd_country (formData st))
         then String.eqb (toLowerCase (country loc))
                         (toLowerCase (fd_country (formData st)))
              || includes (toLowerCase (country loc))
                          (toLowerCase (fd_country (formData st)))
         else true).
  assert (HPQ : (P ++ Q)%string <> ""%string)
    by (destruct P; [congruence | discriminate]).
  destruct (truthy (trim (P ++ Q))) eqn:E2, (truthy (trim P)) eqn:E1.
  - rewrite <- (filter_filter_implied
                  (fun loc => startsWith (toLowerCase (city loc)) (toLowerCase P)
                              && cond loc)
                  (fun loc => startsWith (toLowerCase (city loc))
                                         (toLowerCase (P ++ Q)) && cond loc)).
    + apply filter_Selects_In. intros loc Hin.
      apply filter_In in Hin as [_ Hin].
      apply andb_true_iff in Hin as [_ Hc].
      rewrite andb_true_iff, startsWith_ci. tauto.
    + intros loc H. apply andb_true_iff in H as [H1 H2].
      apply andb_true_iff. split; [| exact H2].
      apply startsWith_ci. apply startsWith_ci in H1.
      now apply starts_with_ci_app with Q.
  - (* [P] is blank and not empty: nothing starts with [P ++ Q] *)
    rewrite filter_none; [constructor |].
    intros loc Hin. apply andb_false_iff. left.
    destruct (startsWith _ _) eqn:Es; [| reflexivity].
    exfalso. apply startsWith_ci, starts_with_ci_app in Es.
    revert Es. apply blank_prefix_no_match;
      [exact HP | now apply truthy_false |].
    apply startsWithLetter_spec, (directory_names loc Hin).
  - apply none_Selects. intros loc Hin. apply filter_In in Hin as [Hin _].
    apply blank_prefix_no_match; [exact HPQ | now apply truthy_false |].
    apply startsWithLetter_spec, (directory_names loc Hin).
  - constructor.
Qed.

Lemma typing_on_narrows_witness :
  "m"%string <> ""%string
  /\ Selects (fun loc => starts_with_ci (city loc) ("m" ++ "i"))
             (citySuggestions (run (handleCityChange "m") initial))
             [mkLocation "Miami" "USA"; mkLocation "Milan" "Italy"].
Proof.
  assert (Hne : "m"%string <> ""%string) by discriminate.
  split; [exact Hne |].
  exact (typing_on_narrows initial "m" "i" Hne).
Defined.

Lemma city_change_fields value st :
  formData (run (handleCityChange value) st)
  = mkFormState value (fd_country (formData st)) (fd_duration (formData st))
  /\ showCityDropdown (run (handleCityChange value) st) = truthy (trim value)
  /\ countrySuggestions (run (handleCityChange value) st) = countrySuggestions st
  /\ activeField (run (handleCityChange value) st) = activeField st
  /\ showCountryDropdown (run (handleCityChange value) st)
     = showCountryDropdown st.
Proof.
  unfold run, handleCityChange. rewrite length_positive.
  destruct (truthy (trim value)); repeat split.
Qed.

Lemma country_change_fields value st :
  formData (run (handleCountryChange value) st)
  = mkFormState (fd_city (formData st)) value (fd_duration (formData st))
  /\ showCountryDropdown (run (handleCountryChange value) st)
     = truthy (trim value)
  /\ citySuggestions (run (handleCountryChange value) st) = citySuggestions st
  /\ activeField (run (handleCountryChange value) st) = activeField st
  /\ showCityDropdown (run (handleCountryChange value) st) = showCityDropdown st.
Proof.
  unfold run, handleCountryChange. rewrite length_positive.
  destruct (truthy (trim value)); repeat split.
Qed.

Lemma pick_city_state c k st :
  runBoth (selectCity c k) (handleClickOutside InCityWrapper) st
  = mkState (mkFormState c k (fd_duration (formData st))) (activeField st)
            (citySuggestions st) (countrySuggestions st) false false.
Proof. reflexivity. Qed.

Lemma pick_country_state k st :
  runBoth (selectCountry k) (handleClickOutside InCountryWrapper) st
  = mkState (mkFormState (fd_city (formData st)) k (fd_duration (formData st)))
            (activeField st) (citySuggestions st) (countrySuggestions st)
            false false.
Proof. reflexivity. Qed.

Lemma length_positive_list {A} (l : list A) :
  (0 <? List.length l)%nat = match l with [] => false | _ => true end.
Proof. destruct l; reflexivity. Qed.

(** Every directory entry has a city and a country that are not blank,
    and no two directory countries differ only in letter case. *)
Lemma directory_not_blank loc :
  In loc POPULAR_LOCATIONS ->
  truthy (trim (city loc)) = true /\ truthy (trim (country loc)) = true
  /\ truthy (country loc) = true.
Proof.
  assert (H : forallb (fun loc => truthy (trim (city loc))
                                  && truthy (trim (country loc))
                                  && truthy (country loc))
                      POPULAR_LOCATIONS = true) by (vm_compute; reflexivity).
  intros Hin. rewrite forallb_forall in H. specialize (H loc Hin).
  apply andb_true_iff in H as [H H3]. apply andb_true_iff in H as [H1 H2].
  auto.
Qed.

Lemma directory_country_case a b :
  In a POPULAR_LOCATIONS -> In b POPULAR_LOCATIONS ->
  eq_ci (country a) (country b) -> country a = country b.
Proof.
  assert (H : forallb (fun a => forallb (fun b =>
                implb (String.eqb (toLowerCase (country a)) (toLowerCase (country b)))
                      (String.eqb (country a) (country b)))
                POPULAR_LOCATIONS) POPULAR_LOCATIONS = true)
    by (vm_compute; reflexivity).
  intros Ha Hb E. rewrite forallb_forall in H. specialize (H a Ha).
  rewrite forallb_forall in H. specialize (H b Hb).
  apply (proj2 (String.eqb_eq _ _)) in E. rewrite E in H.
  now apply String.eqb_eq.
Qed.

(** X3. A suggestion picked from the list typing produced fills city and
    country with a pair of the directory, keeps the duration, closes both
    dropdowns (so that a second [mousedown] on the item finds no list),
    and the form is then accepted by the submit action. *)
Theorem picked_suggestion_is_submittable
        (st : State) (v : string) (idx : nat) (item : Location) :
  nth_error (citySuggestions (run (handleCityChange v) st)) idx = Some item ->
  let st2 := dispatch (run (handleCityChange v) st) (PickCity idx) in
  In item POPULAR_LOCATIONS
  /\ formData st2
     = mkFormState (city item) (country item) (fd_duration (formData st))
  /\ showCityDropdown st2 = false
  /\ showCountryDropdown st2 = false
  /\ dispatch st2 (PickCity idx) = st2
  /\ submitted (handleSubmit st2) = [formData st2].
Proof.
  intros Hn st2.
  assert (Hin : In item POPULAR_LOCATIONS).
  { apply nth_error_In in Hn. rewrite city_change_suggestions in Hn.
    destruct (truthy (trim v)); [| destruct Hn].
    now apply filter_In in Hn. }
  assert (Hv : truthy (trim v) = true).
  { rewrite city_change_suggestions in Hn.
    destruct (truthy (trim v)); [reflexivity | destruct idx; discriminate]. }
  destruct (city_change_fields v st) as (Hfd & Hshow & _).
  subst st2. remember (run (handleCityChange v) st) as st1 eqn:Hst1.
  assert (Hst2 : dispatch st1 (PickCity idx)
                 = mkState (mkFormState (city item) (country item)
                                        (fd_duration (formData st)))
                           (activeField st1) (citySuggestions st1)
                           (countrySuggestions st1) false false).
  { unfold dispatch, cityDropdownVisible.
    rewrite Hn, Hshow, Hv, length_positive_list.
    destruct (citySuggestions st1) eqn:Es; [destruct idx; discriminate |].
    cbn [andb]. rewrite pick_city_state, Hfd, Es. reflexivity. }
  split; [exact Hin |]. rewrite Hst2.
  do 3 (split; [reflexivity |]).
  split; [reflexivity |].
  rewrite submitted_handleSubmit. cbn [formData fd_city fd_country].
  destruct (directory_not_blank item Hin) as (-> & -> & _). reflexivity.
Qed.

Lemma picked_suggestion_is_submittable_witness :
  nth_error (citySuggestions (run (handleCityChange "pa") countryTyped)) 0
  = Some (mkLocation "Paris" "France")
  /\ formData (dispatch (run (handleCityChange "pa") countryTyped) (PickCity 0))
     = mkFormState "Paris" "France" "".
Proof.
  assert (H : nth_error (citySuggestions (run (handleCityChange "pa") countryTyped)) 0
              = Some (mkLocation "Paris" "France")) by reflexivity.
  split; [exact H |].
  exact (proj1 (proj2 (picked_suggestion_is_submittable countryTyped "pa" 0 _ H))).
Defined.

Lemma city_focus_state st :
  fd_city (formData st) = ""%string ->
  truthy (fd_country (formData st)) = true ->
  run handleCityFocus st
  = mkState (formData st) (Some "city"%string)
            (filter (fun loc =>
                       String.eqb (toLowerCase (country loc))
                                  (toLowerCase (fd_country (formData st))))
                    POPULAR_LOCATIONS)
            (countrySuggestions st) true (showCountryDropdown st).
Proof.
  intros Hc Hk. unfold run, handleCityFocus. rewrite Hc, Hk. reflexivity.
Qed.

(** X4. Focusing the empty city field while a country is set lists
    exactly the directory entries of that country (equal without regard
    to case, not merely containing it), in directory order, and opens the
    list without touching the fields. *)
Theorem focus_lists_cities_of_country (st : State) :
  fd_city (formData st) = ""%string ->
  fd_country (formData st) <> ""%string ->
  let st' := run handleCityFocus st in
  Selects (fun loc => eq_ci (country loc) (fd_country (formData st)))
          POPULAR_LOCATIONS (citySuggestions st')
  /\ showCityDropdown st' = true
  /\ activeField st' = Some "city"%string
  /\ formData st' = formData st.
Proof.
  intros Hc Hk st'. subst st'. apply truthy_true in Hk.
  rewrite (city_focus_state st Hc Hk). cbn [citySuggestions showCityDropdown
                                            activeField formData].
  split; [| repeat split].
  apply filter_Selects. intros loc. apply eqb_ci.
Qed.

Lemma focus_lists_cities_of_country_witness :
  (fd_city (formData countryTyped) = ""%string
   /\ fd_country (formData countryTyped) <> ""%string)
  /\ Selects (fun loc => eq_ci (country loc) "france")
             POPULAR_LOCATIONS
             [ mkLocation "Paris" "France"; mkLocation "Nice" "France";
               mkLocation "Lyon" "France"; mkLocation "Marseille" "France" ].
Proof.
  assert (H1 : fd_city (formData countryTyped) = ""%string) by reflexivity.
  assert (H2 : fd_country (formData countryTyped) <> ""%string) by discriminate.
  split; [now split |].
  exact (proj1 (focus_lists_cities_of_country countryTyped H1 H2)).
Defined.

(** X5. A country picked from the list typing produced, followed by
    focus on the still empty city field, shows a list that is not empty
    and holds directory entries of exactly that country. *)
Theorem chosen_country_lists_its_cities
        (st : State) (P : string) (idx : nat) (c : string) :
  fd_city (formData st) = ""%string ->
  nth_error (countrySuggestions (run (handleCountryChange P) st)) idx = Some c ->
  let st3 := dispatch (dispatch (run (handleCountryChange P) st)
                                (PickCountry idx)) FocusCity in
  fd_country (formData st3) = c
  /\ citySuggestions st3 <> []
  /\ Forall (fun loc => In loc POPULAR_LOCATIONS /\ country loc = c)
            (citySuggestions st3)
  /\ cityDropdownVisible st3 = true.
Proof.
  intros Hcity Hn st3.
  destruct (country_change_fields P st) as (Hfd & Hshow & _).
  assert (Hv : truthy (trim P) = true).
  { rewrite country_change_suggestions in Hn.
    destruct (truthy (trim P)); [reflexivity | destruct idx; discriminate]. }
  assert (Hc : exists loc0, In loc0 POPULAR_LOCATIONS /\ country loc0 = c).
  { apply nth_error_In in Hn. rewrite country_change_suggestions, Hv in Hn.
    rewrite arrayFromSet_firstSeen in Hn.
    apply firstSeen_In, filter_In in Hn as [Hn _].
    apply in_map_iff in Hn as (loc0 & E & Hin). now exists loc0. }
  destruct Hc as (loc0 & Hin0 & E0).
  subst st3. remember (run (handleCountryChange P) st) as st1 eqn:Hst1.
  assert (Hst2 : dispatch st1 (PickCountry idx)
                 = mkState (mkFormState ""%string c (fd_duration (formData st)))
                           (activeField st1) (citySuggestions st1)
                           (countrySuggestions st1) false false).
  { unfold dispatch, countryDropdownVisible.
    rewrite Hn, Hshow, Hv, length_positive_list.
    destruct (countrySuggestions st1) eqn:Es; [destruct idx; discriminate |].
    cbn [andb]. rewrite pick_country_state, Hfd, Es, Hcity. reflexivity. }
  rewrite Hst2. unfold dispatch.
  assert (Hk : truthy c = true)
    by (rewrite <- E0; apply (directory_not_blank loc0 Hin0)).
  rewrite city_focus_state by (try reflexivity; exact Hk).
  cbn [formData fd_country citySuggestions].
  assert (Hmem : In loc0 (filter (fun loc =>
                   String.eqb (toLowerCase (country loc)) (toLowerCase c))
                   POPULAR_LOCATIONS)).
  { apply filter_In. split; [exact Hin0 |]. rewrite E0. apply String.eqb_refl. }
  split; [reflexivity |].
  split; [intros E; rewrite E in Hmem; destruct Hmem |].
  split.
  - apply Forall_forall. intros loc Hl. apply filter_In in Hl as [Hl El].
    split; [exact Hl |]. rewrite <- E0.
    apply directory_country_case; [exact Hl | exact Hin0 |].
    unfold eq_ci. rewrite E0. now apply String.eqb_eq.
  - unfold cityDropdownVisible. cbn [showCityDropdown citySuggestions].
    rewrite length_positive_list.
    destruct (filter _ POPULAR_LOCATIONS); [destruct Hmem | reflexivity].
Qed.

Lemma chosen_country_lists_its_cities_witness :
  (fd_city (formData initial) = ""%string
   /\ nth_error (countrySuggestions (run (handleCountryChange "ja") initial)) 0
      = Some "Japan"%string)
  /\ fd_country (formData (dispatch (dispatch (run (handleCountryChange "ja") initial)
                                              (PickCountry 0)) FocusCity))
     = "Japan"%string.
Proof.
  assert (H1 : fd_city (formData initial) = ""%string) by reflexivity.
  assert (H2 : nth_error (countrySuggestions (run (handleCountryChange "ja") initial)) 0
               = Some "Japan"%string) by reflexivity.
  split; [now split |].
  exact (proj1 (chosen_country_lists_its_cities initial "ja" 0 "Japan" H1 H2)).
Defined.

Lemma city_focus_suggestions st :
  citySuggestions (run handleCityFocus st)
  = (if truthy (fd_country (formData st)) && negb (truthy (fd_city (formData st)))
     then filter (fun loc =>
                    String.eqb (toLowerCase (country loc))
                               (toLowerCase (fd_country (formData st))))
                 POPULAR_LOCATIONS
     else citySuggestions st)
  /\ countrySuggestions (run handleCityFocus st) = countrySuggestions st.
Proof.
  unfold run, handleCityFocus.
  destruct (truthy (fd_country (formData st))),
           (truthy (fd_city (formData st)));
    cbv beta iota zeta delta [fold_left reduce citySuggestions
                              countrySuggestions andb negb];
    split; reflexivity.
Qed.

Lemma filter_from_directory (f : Location -> bool) :
  Forall (fun loc => In loc POPULAR_LOCATIONS) (filter f POPULAR_LOCATIONS).
Proof. apply Forall_forall. intros loc H. now apply filter_In in H. Qed.

Lemma arrayFromSet_from_directory (f : string -> bool) :
  NoDup (arrayFromSet (filter f (map country POPULAR_LOCATIONS)))
  /\ incl (arrayFromSet (filter f (map country POPULAR_LOCATIONS)))
          (map country POPULAR_LOCATIONS).
Proof.
  rewrite arrayFromSet_firstSeen. split; [apply firstSeen_NoDup |].
  intros c H. now apply firstSeen_In, filter_In in H.
Qed.

Lemma dispatch_keeps_directory st ev :
  SpecExtra.suggestionsFromDirectory st ->
  SpecExtra.suggestionsFromDirectory (dispatch st ev).
Proof.
  unfold SpecExtra.suggestionsFromDirectory. intros (Hc & Hn & Hi).
  destruct ev; unfold dispatch.
  - destruct (city_change_fields value st) as (_ & _ & -> & _).
    rewrite city_change_suggestions.
    split; [| now split].
    destruct (truthy (trim value)); [apply filter_from_directory | constructor].
  - destruct (country_change_fields value st) as (_ & _ & -> & _).
    rewrite country_change_suggestions.
    split; [exact Hc |].
    destruct (truthy (trim value)); [apply arrayFromSet_from_directory |].
    split; [constructor | intros c []].
  - now repeat split.
  - destruct (city_focus_suggestions st) as [-> ->].
    split; [| now split].
    destruct (truthy (fd_country (formData st))
              && negb (truthy (fd_city (formData st))));
      [apply filter_from_directory | exact Hc].
  - unfold run, handleCountryFocus.
    destruct (truthy (fd_country (formData st))); now repeat split.
  - now repeat split.
  - now repeat split.
  - destruct target; now repeat split.
  - destruct (cityDropdownVisible st); [| now repeat split].
    destruct (nth_error (citySuggestions st) idx); [| now repeat split].
    rewrite pick_city_state. now repeat split.
  - destruct (countryDropdownVisible st); [| now repeat split].
    destruct (nth_error (countrySuggestions st) idx); [| now repeat split].
    rewrite pick_country_state. now repeat split.
  - rewrite run_handleSubmit. now repeat split.
Qed.

(** X6. Whatever the user does to the form (typing, focus, blur, clicks
    inside or outside the fields, picking suggestions, submitting), the
    city dropdown only ever holds entries of the directory and the country
    dropdown only directory countries, none of them twice. *)
Theorem dropdowns_offer_directory_entries (evs : list Event) :
  SpecExtra.suggestionsFromDirectory (fold_left dispatch evs initial).
Proof.
  assert (H0 : SpecExtra.suggestionsFromDirectory initial).
  { repeat split; [constructor | constructor | intros c []]. }
  revert H0. generalize initial.
  induction evs as [|ev evs IH]; intros st H; simpl; [exact H |].
  apply IH. now apply dispatch_keeps_directory.
Qed.

End TravelFormExtra.

(** ** More about the service *)
Module OrchestrationExtra.
Import JsString Js Gemini App Spec SpecExtra Notations.
Import OrchestrationFacts ParseIntFacts.

Lemma firstInlineImage_dataUrl ps : absentOrDataUrl (firstInlineImage ps).
Proof.
  induction ps as [|part ps IH]; simpl; [exact I |].
  destruct (inlineData part) as [blob|]; [| exact IH].
  destruct (Gemini.data blob) as [[|c d]|]; try exact IH.
  simpl. exists (interpolate (mimeType blob)), (String c d).
  split; [reflexivity | discriminate].
Qed.

Lemma imageOf_dataUrl response : absentOrDataUrl (imageOf response).
Proof.
  unfold imageOf. destruct (firstParts response); [| exact I].
  apply firstInlineImage_dataUrl.
Qed.

Lemma definedOnly_length results :
  List.length (definedOnly results) <= List.length results.
Proof.
  induction results as [|[u|] results IH]; simpl; lia.
Qed.

Lemma definedOnly_Forall (Q : string -> Prop) results :
  Forall (fun o => match o with Some u => Q u | None => True end) results ->
  Forall Q (definedOnly results).
Proof.
  induction 1 as [|[u|] results Hu _ IH]; simpl; auto.
Qed.

(** X7. Both image functions always resolve.  The hero image is absent
    or a data URL with a non-empty payload, never an empty string; the
    gallery holds at most three entries, each such a data URL. *)
Theorem images_are_data_urls (h : Host) (city country : string) :
  exists o l,
    generateCityImage h city country = Returned o
    /\ absentOrDataUrl o
    /\ generateCityGallery h city country = Returned l
    /\ Forall isDataUrl l
    /\ List.length l <= 3.
Proof.
  exists (heroImage h city country), (galleryImages h city country).
  split; [apply generateCityImage_returns |].
  split.
  { unfold heroImage. destruct (generateContent h _); [| exact I].
    apply imageOf_dataUrl. }
  split; [apply generateCityGallery_returns |].
  unfold galleryImages. split.
  - apply definedOnly_Forall, Forall_forall. intros o Ho.
    apply in_map_iff in Ho as (p & <- & _). unfold galleryImage.
    destruct (generateContent h _); [apply imageOf_dataUrl | exact I].
  - etransitivity; [apply definedOnly_length |].
    now rewrite length_map.
Qed.

Lemma setProp_keys_new o k v :
  ~ In k (map fst o) -> map fst (setProp o k v) = map fst o ++ [k].
Proof.
  induction o as [|[k' v'] o IH]; simpl; intros Hn; [reflexivity |].
  destruct (String.eqb_spec k k') as [->|Hne]; [tauto |].
  simpl. rewrite IH; tauto.
Qed.

(** X8. The guide built from a reply has exactly the nine properties of
    the literal, in its order, whatever else the reply holds, and the
    stored guide has these followed by [imageUrl] and [gallery]; city and
    country are those of the reply when it has usable ones and those the
    user typed otherwise. *)
Theorem guide_has_nine_fields
        (parsedData : Value) (city country : string) (guide : Object)
        (imageUrl : option string) (gallery : list string) :
  safeData parsedData city country = Returned guide ->
  map fst guide = guideFields
  /\ map fst (combine guide imageUrl gallery)
     = guideFields ++ ["imageUrl"%string; "gallery"%string]
  /\ lookup "city" guide
     = (if ToBoolean (field parsedData "city")
        then field parsedData "city" else JStr city)
  /\ lookup "country" guide
     = (if ToBoolean (field parsedData "country")
        then field parsedData "country" else JStr country).
Proof.
  intros Hg. apply safeData_returned in Hg. subst guide.
  split; [reflexivity |]. split; [| split; reflexivity].
  unfold combine. rewrite setProp_keys_new.
  - rewrite setProp_keys_new; [reflexivity |].
    simpl. intuition discriminate.
  - rewrite setProp_keys_new by (simpl; intuition discriminate).
    simpl. intuition discriminate.
Qed.

Lemma guide_has_nine_fields_witness :
  safeData emptyIntroductionGuide "Roma" "Italia"
  = Returned
      [ ("city", JStr "Rome"); ("country", JStr "Italy");
        ("coordinates", field emptyIntroductionGuide "coordinates");
        ("introduction", JStr "Information currently unavailable.");
        ("weather", field emptyIntroductionGuide "weather");
        ("attractions", field emptyIntroductionGuide "attractions");
        ("mapContext", JStr "Seven hills by the Tiber");
        ("itinerary", field emptyIntroductionGuide "itinerary");
        ("localTips", field emptyIntroductionGuide "localTips") ]%string
  /\ lookup "city"
       [ ("city", JStr "Rome"); ("country", JStr "Italy");
         ("coordinates", field emptyIntroductionGuide "coordinates");
         ("introduction", JStr "Information currently unavailable.");
         ("weather", field emptyIntroductionGuide "weather");
         ("attractions", field emptyIntroductionGuide "attractions");
         ("mapContext", JStr "Seven hills by the Tiber");
         ("itinerary", field emptyIntroductionGuide "itinerary");
         ("localTips", field emptyIntroductionGuide "localTips") ]%string
     = JStr "Rome".
Proof.
  assert (H : safeData emptyIntroductionGuide "Roma" "Italia"
              = Returned
                  [ ("city", JStr "Rome"); ("country", JStr "Italy");
                    ("coordinates", field emptyIntroductionGuide "coordinates");
                    ("introduction", JStr "Information currently unavailable.");
                    ("weather", field emptyIntroductionGuide "weather");
                    ("attractions", field emptyIntroductionGuide "attractions");
                    ("mapContext", JStr "Seven hills by the Tiber");
                    ("itinerary", field emptyIntroductionGuide "itinerary");
                    ("localTips", field emptyIntroductionGuide "localTips") ]%string)
    by reflexivity.
  split; [exact H |].
  exact (proj1 (proj2 (proj2 (guide_has_nine_fields _ _ _ _ None [] H)))).
Defined.

(** X9. A reply that is valid JSON but not an object (a number, a
    string, a boolean, an array) is not an error: the submission succeeds
    with the guide made of defaults only, carrying the city and country
    the user typed. *)
Theorem non_object_reply_gives_default_guide
        (h : Host) (fd : TravelForm.FormState) (st : App.State)
        (parsedData : Value) :
  let c := TravelForm.fd_city fd in
  let k := TravelForm.fd_country fd in
  contentParses h c k (TravelForm.fd_duration fd) parsedData ->
  isPrimitiveOrArray parsedData = true ->
  generateCityGuide h c k (TravelForm.fd_duration fd)
  = Returned (defaultGuide c k)
  /\ handleFormSubmit h fd st
     = succeeded st (combine (defaultGuide c k)
                             (heroImage h c k) (galleryImages h c k)).
Proof.
  intros c k Hp Hprim.
  assert (Hg : generateCityGuide h c k (TravelForm.fd_duration fd)
               = Returned (defaultGuide c k)).
  { rewrite (generateCityGuide_parses _ _ _ _ _ Hp).
    destruct parsedData; try discriminate; reflexivity. }
  split; [exact Hg |].
  rewrite handleFormSubmit_cases. fold c k. now rewrite Hg.
Qed.

Lemma or_or a b : or (or a b) b = or a b.
Proof.
  unfold or. destruct (ToBoolean a) eqn:E; [now rewrite E |].
  destruct (ToBoolean b); reflexivity.
Qed.

Lemma arrayOrEmpty_idem v : arrayOrEmpty (arrayOrEmpty v) = arrayOrEmpty v.
Proof. unfold arrayOrEmpty. destruct v; reflexivity. Qed.

(** X10. Sanitising is idempotent: a guide that went through the step
    comes out of a second pass unchanged. *)
Theorem safeData_idempotent
        (parsedData : Value) (city country : string) (guide : Object) :
  safeData parsedData city country = Returned guide ->
  safeData (JObj guide) city country = Returned guide.
Proof.
  intros Hg. apply safeData_returned in Hg. subst guide.
  generalize (field parsedData "city"), (field parsedData "country"),
    (field parsedData "coordinates"), (field parsedData "introduction"),
    (field parsedData "weather"), (field parsedData "attractions"),
    (field parsedData "mapContext"), (field parsedData "itinerary"),
    (field parsedData "localTips").
  intros v1 v2 v3 v4 v5 v6 v7 v8 v9.
  change (Returned
            [ ("city"%string, or (or v1 (JStr city)) (JStr city));
              ("country"%string, or (or v2 (JStr country)) (JStr country));
              ("coordinates"%string,
                or (or v3 defaultCoordinates) defaultCoordinates);
              ("introduction"%string,
                or (or v4 (JStr "Information currently unavailable."))
                   (JStr "Information currently unavailable."));
              ("weather"%string, or (or v5 defaultWeather) defaultWeather);
              ("attractions"%string, arrayOrEmpty (arrayOrEmpty v6));
              ("mapContext"%string,
                or (or v7 (JStr "Map details unavailable."))
                   (JStr "Map details unavailable."));
              ("itinerary"%string, arrayOrEmpty (arrayOrEmpty v8));
              ("localTips"%string, arrayOrEmpty (arrayOrEmpty v9)) ]
          = Returned
            [ ("city"%string, or v1 (JStr city));
              ("country"%string, or v2 (JStr country));
              ("coordinates"%string, or v3 defaultCoordinates);
              ("introduction"%string,
                or v4 (JStr "Information currently unavailable."));
              ("weather"%string, or v5 defaultWeather);
              ("attractions"%string, arrayOrEmpty v6);
              ("mapContext"%string, or v7 (JStr "Map details unavailable."));
              ("itinerary"%string, arrayOrEmpty v8);
              ("localTips"%string, arrayOrEmpty v9) ]).
  now rewrite !or_or, !arrayOrEmpty_idem.
Qed.

Lemma safeData_idempotent_witness :
  safeData (JObj []) "Rome" "Italy" = Returned (defaultGuide "Rome" "Italy")
  /\ safeData (JObj (defaultGuide "Rome" "Italy")) "Rome" "Italy"
     = Returned (defaultGuide "Rome" "Italy").
Proof.
  assert (H : safeData (JObj []) "Rome" "Italy"
              = Returned (defaultGuide "Rome" "Italy")) by reflexivity.
  split; [exact H |].
  exact (safeData_idempotent (JObj []) "Rome" "Italy" _ H).
Defined.

Lemma non_object_reply_gives_default_guide_witness :
  (contentParses
     (flakyImages (Returned (mkResponse (Some "doc"%string) None)) (JNum 42%float))
     "Rome" "Italy" "3" (JNum 42%float)
   /\ isPrimitiveOrArray (JNum 42%float) = true)
  /\ generateCityGuide
       (flakyImages (Returned (mkResponse (Some "doc"%string) None)) (JNum 42%float))
       "Rome" "Italy" "3"
     = Returned (defaultGuide "Rome" "Italy").
Proof.
  assert (Hp : contentParses
                 (flakyImages (Returned (mkResponse (Some "doc"%string) None))
                              (JNum 42%float))
                 "Rome" "Italy" "3" (JNum 42%float)).
  { exists (mkResponse (Some "doc"%string) None), "doc"%string.
    repeat split; [discriminate]. }
  split; [split; [exact Hp | reflexivity] |].
  exact (proj1 (non_object_reply_gives_default_guide
                  (flakyImages (Returned (mkResponse (Some "doc"%string) None))
                               (JNum 42%float))
                  romeThreeDays App.initial (JNum 42%float) Hp eq_refl)).
Defined.

End OrchestrationExtra.

(** ** More about [parseInt] *)
Module ParseIntExtra.
Import JsString Gemini Spec SpecExtra ParseIntFacts.
Import Decimal DecimalString.

Lemma trimStart_whitespace ws s :
  allWhiteSpace ws = true -> trimStart (ws ++ s) = trimStart s.
Proof.
  induction ws as [|c ws IH]; simpl; [reflexivity |].
  intros H. apply andb_true_iff in H as [-> H]. now apply IH.
Qed.

Lemma parseInt_whitespace ws s :
  allWhiteSpace ws = true -> parseInt (ws ++ s) = parseInt s.
Proof.
  intros H. unfold parseInt. now rewrite trimStart_whitespace.
Qed.

(** Reading stops at the first character that is not a digit. *)
Lemma digits_end rest acc : endsNumeral rest = true -> digits 10 rest acc = acc.
Proof.
  destruct rest as [|c rest]; [reflexivity |]. simpl.
  intros H. apply andb_true_iff in H as [H _].
  apply andb_true_iff in H as [H _].
  destruct (digitValue c) as [d|]; [| reflexivity].
  apply negb_true_iff in H. now rewrite H.
Qed.

Lemma digits_acc_rest d rest : forall p,
  endsNumeral rest = true ->
  digits 10 (NilEmpty.string_of_uint d ++ rest) (Some (Npos p))
  = Some (Npos (Pos.of_uint_acc d p)).
Proof.
  induction d; intros p Hr;
    [now apply digits_end | ..];
    cbn [NilEmpty.string_of_uint Pos.of_uint_acc String.append];
    erewrite digits_step by reflexivity;
    rewrite <- (IHd _ Hr); apply f_equal, f_equal;
    match goal with
    | |- context [(N_of_ascii ?c - 48)%N] =>
        let v := eval vm_compute in (N_of_ascii c - 48)%N in
        change (N_of_ascii c - 48)%N with v
    end; lia.
Qed.

Lemma digits_start_rest d rest :
  d <> Nil -> endsNumeral rest = true ->
  digits 10 (NilEmpty.string_of_uint d ++ rest) None = Some (Pos.of_uint d)
  /\ digits 10 (NilEmpty.string_of_uint d ++ rest) (Some 0%N)
     = Some (Pos.of_uint d).
Proof.
  induction d; intros Hne Hr; [congruence | | ..].
  - destruct (uint_eq_dec d Nil) as [-> | Hd].
    + cbn [NilEmpty.string_of_uint String.append].
      split; (erewrite digits_step || cbn [digits]); try reflexivity.
      * change (digits 10 (String "0" rest) None)
          with (digits 10 rest (Some 0%N)). now apply digits_end.
      * now apply digits_end.
    + destruct (IHd Hd Hr) as [_ H0]. split; exact H0.
  - split; now apply digits_acc_rest.
  - split; now apply digits_acc_rest.
  - split; now apply digits_acc_rest.
  - split; now apply digits_acc_rest.
  - split; now apply digits_acc_rest.
  - split; now apply digits_acc_rest.
  - split; now apply digits_acc_rest.
  - split; now apply digits_acc_rest.
  - split; now apply digits_acc_rest.
Qed.

(** After the sign the radix is ten: a numeral followed by [rest] has
    no [0x] in front. *)
Lemma parseInt_sign_numeral sg d rest :
  d <> Nil -> endsNumeral rest = true ->
  parseInt (signText sg ++ NilEmpty.string_of_uint d ++ rest)
  = match digits 10 (NilEmpty.string_of_uint d ++ rest) None with
    | Some m => toNumber (isMinus sg) m
    | None => NaN
    end.
Proof.
  intros Hne Hr.
  destruct sg; (destruct d as [|d| | | | | | | | |]; [congruence | | ..]);
    try reflexivity;
    (destruct d; try reflexivity);
    (destruct rest as [|c r]; [reflexivity |]);
    destruct c as [[] [] [] [] [] [] [] []];
    try (vm_compute in Hr; discriminate Hr); reflexivity.
Qed.

(** X11. [parseInt] reads the first integer of the duration and nothing
    else: leading white space is skipped, a sign is honoured, and text
    after the digits (a decimal fraction, a unit) is ignored; the result
    is the binary64 value of that integer with its sign, the integer
    itself below 2^53.  The day count is that Number, so a negative
    duration reaches the prompt unclamped, and it is 1 when the integer is
    zero; whatever the duration, the day count is neither [NaN] nor
    zero. *)
Theorem duration_reads_leading_integer
        (ws : string) (sg : Sign) (n : N) (rest duration : string) :
  allWhiteSpace ws = true ->
  endsNumeral rest = true ->
  parseInt (ws ++ signText sg ++ decimalNumeral n ++ rest)
  = toNumber (isMinus sg) n
  /\ numDays (ws ++ signText sg ++ decimalNumeral n ++ rest)
     = (if (n =? 0)%N then Int false 1 else toNumber (isMinus sg) n)
  /\ ((n < 2 ^ 53)%N -> toNumber (isMinus sg) n = Int (isMinus sg) n)
  /\ ToBooleanInt (numDays duration) = true.
Proof.
  intros Hws Hr.
  assert (Hp : parseInt (ws ++ signText sg ++ decimalNumeral n ++ rest)
               = toNumber (isMinus sg) n).
  { rewrite (parseInt_whitespace _ _ Hws). unfold decimalNumeral.
    assert (Hne : N.to_uint n <> Nil).
    { destruct n; simpl;
        [discriminate | apply DecimalPos.Unsigned.to_uint_nonnil]. }
    rewrite (parseInt_sign_numeral _ _ _ Hne Hr).
    destruct (digits_start_rest _ rest Hne Hr) as [-> _].
    f_equal. apply DecimalN.Unsigned.of_to. }
  split; [exact Hp |]. split; [| split].
  - unfold numDays. rewrite Hp, ToBooleanInt_toNumber.
    destruct (n =? 0)%N; reflexivity.
  - intros Hn. unfold toNumber. now rewrite roundToDouble_exact.
  - unfold numDays. destruct (parseInt duration) as [|s [|m]|s]; reflexivity.
Qed.

Lemma duration_reads_leading_integer_witness :
  (allWhiteSpace "  " = true /\ endsNumeral ".5 days" = true)
  /\ numDays ("  " ++ signText Minus ++ decimalNumeral 3 ++ ".5 days")
     = Int true 3.
Proof.
  assert (H1 : allWhiteSpace "  " = true) by reflexivity.
  assert (H2 : endsNumeral ".5 days" = true) by reflexivity.
  split; [now split |].
  exact (proj1 (proj2 (duration_reads_leading_integer
                         "  " Minus 3 ".5 days" "" H1 H2))).
Defined.

End ParseIntExtra.

(** ** More about the application *)
Module AppExtra.
Import Js Gemini App AppEvents Spec SpecExtra.
Import TravelFormFacts OrchestrationFacts.

Lemma handleFormSubmit_consistent h fd st :
  App.data st = None -> screenConsistent st ->
  screenConsistent (handleFormSubmit h fd st).
Proof.
  intros Hd (Hb & _ & _). rewrite handleFormSubmit_cases.
  destruct (generateCityGuide _ _ _ _); unfold screenConsistent; simpl;
    auto.
Qed.

Lemma step_consistent h st ev :
  screenConsistent st -> screenConsistent (step h st ev).
Proof.
  intros H. destruct ev as [form| |]; unfold step.
  - destruct (App.data st) eqn:Hd; [exact H |].
    unfold formSubmitEvent. rewrite submitted_handleSubmit.
    destruct (_ && _); simpl; [| exact H].
    now apply handleFormSubmit_consistent.
  - destruct (App.data st) eqn:Hd; [| exact H].
    destruct H as (Hb & Hl & _). unfold screenConsistent. simpl. auto.
  - unfold rotateBackground. destruct (App.data st) eqn:Hd; [exact H |].
    destruct H as (Hb & Hl & He). unfold screenConsistent, setBgIndex.
    cbn [bgIndex loading App.data error]. split; [| auto].
    apply Nat.mod_upper_bound. discriminate.
Qed.

(** X12. Whatever sequence of submissions, returns to the form and
    slideshow ticks the application goes through, the slideshow index
    always names one of the seven backgrounds, no submission is left
    loading, and a guide is never on screen together with the error
    message. *)
Theorem screen_stays_consistent (h : Host) (evs : list AppEvents.Event) :
  screenConsistent (fold_left (step h) evs App.initial).
Proof.
  assert (H0 : screenConsistent App.initial).
  { unfold screenConsistent. simpl. repeat split; [lia | now left]. }
  revert H0. generalize App.initial.
  induction evs as [|ev evs IH]; intros st H; simpl; [exact H |].
  apply IH. now apply step_consistent.
Qed.

End AppExtra.

(** ** More about the result view *)
Module ResultViewExtra.
Import Js Gemini Spec SpecExtra ResultView.
Import OrchestrationFacts ResultViewFacts.

Lemma step_keeps_no_map data st ev st' :
  numericCoordinates data = None -> mapRef st = None ->
  step data st ev = Returned st' -> mapRef st' = None.
Proof.
  intros Hc Hm. destruct ev; simpl; intros H.
  - injection H as <-. unfold setActiveTab.
    destruct (TabType_eqb id (activeTab st)); simpl; [exact Hm |].
    now destruct (negb _).
  - injection H as <-. exact Hm.
  - injection H as <-. unfold jumpToMap, setActiveTab.
    destruct (TabType_eqb ResultView.map (activeTab st)); simpl;
      [exact Hm |]. now destruct (negb _).
  - injection H as <-. unfold initMapEffect. rewrite Hc.
    now destruct (_ && _).
  - destruct (timers st) as [|[lat lng] rest].
    + now injection H as <-.
    + simpl in H. rewrite Hm in H. now injection H as <-.
Qed.

(** X14. For a guide without numeric coordinates no sequence of events
    creates a map: every run from the initial view completes with no map,
    so every jump made is dropped by its guard. *)
Theorem no_map_without_coordinates (data : Object) (evs : list Event) :
  numericCoordinates data = None ->
  exists st, steps data initial evs = Returned st /\ mapRef st = None.
Proof.
  intros Hc.
  assert (H0 : mapRef initial = None) by reflexivity.
  revert H0. generalize initial.
  induction evs as [|ev evs IH]; intros st Hm; simpl; [now exists st |].
  destruct (step_returns data st ev) as [st1 Hs]. rewrite Hs. simpl.
  apply IH. now apply (step_keeps_no_map data st ev).
Qed.

Lemma no_map_without_coordinates_witness :
  numericCoordinates [("coordinates"%string, JStr "Rome")] = None
  /\ exists st,
       steps [("coordinates"%string, JStr "Rome")] initial
             [JumpToAttraction 1%float 2%float; InitMap true; Timeout]
       = Returned st
       /\ mapRef st = None.
Proof.
  assert (H : numericCoordinates [("coordinates"%string, JStr "Rome")] = None)
    by reflexivity.
  split; [exact H |].
  exact (no_map_without_coordinates _
           [JumpToAttraction 1%float 2%float; InitMap true; Timeout] H).
Defined.

(** X15. Leaving the map tab and coming back makes a new map: the view
    is again the centre of the city at zoom 13, wherever a jump had moved
    it. *)
Theorem returning_to_the_map_resets_the_view
        (data : Object) (c : float * float) (other : TabType) (st : State) :
  activeTab st = ResultView.map ->
  other <> ResultView.map ->
  numericCoordinates data = Some c ->
  steps data st [SelectTab other; SelectTab ResultView.map; InitMap true]
  = Returned (mkState ResultView.map (mapStyle st) (Some (mkMap c 13))
                      (timers st)).
Proof.
  intros Ht Ho Hc. destruct st as [tab style ref ts]. simpl in Ht. subst tab.
  destruct other; try congruence; simpl; unfold initMapEffect; simpl;
    rewrite Hc; reflexivity.
Qed.

Lemma returning_to_the_map_resets_the_view_witness :
  (attractions <> ResultView.map
   /\ numericCoordinates [("coordinates"%string, defaultCoordinates)]
      = Some (0%float, 0%float))
  /\ steps [("coordinates"%string, defaultCoordinates)]
           (mkState ResultView.map satellite
                    (Some (mkMap (41.875%float, 12.5%float) 15)) [])
           [SelectTab attractions; SelectTab ResultView.map; InitMap true]
     = Returned (mkState ResultView.map satellite
                         (Some (mkMap (0%float, 0%float) 13)) []).
Proof.
  assert (H1 : attractions <> ResultView.map) by discriminate.
  assert (H2 : numericCoordinates [("coordinates"%string, defaultCoordinates)]
               = Some (0%float, 0%float)) by reflexivity.
  split; [now split |].
  exact (returning_to_the_map_resets_the_view _ _ attractions
           (mkState ResultView.map satellite
                    (Some (mkMap (41.875%float, 12.5%float) 15)) [])
           eq_refl H1 H2).
Defined.

(** X16. When the reply has no usable coordinates the stored guide
    carries [{lat: 0, lng: 0}], which the view takes for numeric
    coordinates: on the map tab the first effect creates a map centred on
    (0, 0) at zoom 13 instead of leaving the placeholder. *)
Theorem missing_coordinates_map_at_origin
        (parsedData : Value) (city country : string) (guide : Object)
        (imageUrl : option string) (gallery : list string)
        (style : MapStyle) (pending : list Timer) :
  safeData parsedData city country = Returned guide ->
  ToBoolean (field parsedData "coordinates") = false ->
  numericCoordinates (App.combine guide imageUrl gallery)
  = Some (0%float, 0%float)
  /\ initMapEffect true (App.combine guide imageUrl gallery)
                   (mkState ResultView.map style None pending)
     = mkState ResultView.map style
               (Some (mkMap (0%float, 0%float) 13)) pending.
Proof.
  intros Hg Hf.
  assert (Hn : numericCoordinates (App.combine guide imageUrl gallery)
               = Some (0%float, 0%float)).
  { unfold numericCoordinates.
    rewrite lookup_combine_field by (simpl; auto).
    apply safeData_returned in Hg. subst guide.
    change (lookup "coordinates" _)
      with (or (field parsedData "coordinates") defaultCoordinates).
    unfold or. rewrite Hf. reflexivity. }
  split; [exact Hn |].
  unfold initMapEffect. simpl. now rewrite Hn.
Qed.

Lemma missing_coordinates_map_at_origin_witness :
  (safeData (JObj []) "Rome" "Italy" = Returned (defaultGuide "Rome" "Italy")
   /\ ToBoolean (field (JObj []) "coordinates") = false)
  /\ numericCoordinates (App.combine (defaultGuide "Rome" "Italy") None [])
     = Some (0%float, 0%float).
Proof.
  assert (H1 : safeData (JObj []) "Rome" "Italy"
               = Returned (defaultGuide "Rome" "Italy")) by reflexivity.
  assert (H2 : ToBoolean (field (JObj []) "coordinates") = false)
    by reflexivity.
  split; [now split |].
  exact (proj1 (missing_coordinates_map_at_origin
                  (JObj []) "Rome" "Italy" _ None [] street [] H1 H2)).
Defined.

End ResultViewExtra.
